(** * Singleton tracking, solver dispatch, CAT ring spends and the pool log

    A shallow embedding of the parts of chia-blockchain that the
    specification's properties talk about:

    - [Solver] and [SingletonWallet] of
      [chia/_tests/wallet/test_singleton_lifecycle_fast.py];
    - [subtotals_for_deltas] and [unsigned_spend_bundle_for_spendable_cats]
      of [chia/wallet/cat_wallet/cat_utils.py];
    - the ledger log store ([WalletPoolStore]), whose implementation is not
      among the sources and is modelled from the specification.

    Python exceptions are values of [exn]; a call that may raise returns a
    [result].  CLVM programs are binary trees of byte strings.  Hashing,
    currying and puzzle evaluation belong to libraries outside the sources;
    they are the fields of the class [Clvm], so every theorem holds for any
    implementation of them. *)

From Stdlib Require Import ZArith List String Lia.
From Stdlib Require Import Strings.Byte Strings.Ascii.
From stdpp Require Import base tactics option list numbers countable gmap strings.

Set Warnings "-register-all".
Local Open Scope Z_scope.

Module Base.

(** ** Exceptions and results *)

Inductive exn : Type :=
  | ValueError (msg : string)
  | TypeError (msg : string)
  | AssertionError
  | IndexError
  | RecursionError
  | EvalError (diagnostic : string).

Definition result (A : Type) : Type := exn + A.

Abbreviation Ok := (@inr exn _).
Abbreviation raise := (@inl exn _).

#[global] Instance result_ret : MRet result := fun _ x => inr x.
#[global] Instance result_bind : MBind result :=
  fun _ _ f m => match m with inl e => inl e | inr x => f x end.

#[global] Instance result_fmap : FMap result :=
  fun _ _ f m => match m with inl e => inl e | inr x => inr (f x) end.

#[global] Instance exn_eq_dec : EqDecision exn.
Proof. solve_decision. Defined.

(** [assert c]: raises [AssertionError] when [c] is false. *)
Definition py_assert (c : bool) : result unit :=
  if c then Ok tt else raise AssertionError.

(** ** Byte strings *)

#[global] Instance byte_eq_dec : EqDecision byte := Byte.byte_eq_dec.
#[global] Instance byte_countable : Countable byte :=
  inj_countable Byte.to_N Byte.of_N Byte.of_to_N.

Definition bytes : Type := list byte.
Definition bytes32 : Type := bytes.
Definition uint64 : Type := Z.

(** ** CLVM programs: atoms and pairs *)

Inductive Program : Type :=
  | Atom (a : bytes)
  | Pair (first rest : Program).

#[global] Instance Program_eq_dec : EqDecision Program.
Proof. solve_decision. Defined.

Definition nil_program : Program := Atom [].

(** What [Program.to] accepts in the modelled code: a program, a byte
    string, an integer, a 2-tuple or a Python list of those. *)
Inductive Castable : Type :=
  | CProgram (p : Program)
  | CBytes (b : bytes)
  | CInt (z : Z)
  | CPair (a b : Castable)
  | CList (l : list Castable).

(** ** Coins and spends *)

Record Coin : Type := mkCoin {
  parent_coin_info : bytes32;
  puzzle_hash : bytes32;
  amount : uint64
}.

#[global] Instance Coin_eq_dec : EqDecision Coin.
Proof. solve_decision. Defined.

Record CoinSpend : Type := make_spend {
  coin : Coin;
  puzzle_reveal : Program;
  solution : Program
}.

#[global] Instance CoinSpend_eq_dec : EqDecision CoinSpend.
Proof. solve_decision. Defined.

Record ConditionWithArgs : Type := mkCondition {
  opcode : N;
  vars : list bytes
}.

(** [ConditionOpcode.CREATE_COIN] is the byte 51. *)
Definition CREATE_COIN : N := 51%N.

Definition INFINITE_COST : Z := 11000000000.

(** ** The libraries the code calls

    [get_tree_hash], [Coin.name], [uncurry], [curry], [as_iter],
    [as_int] (here [int_from_bytes] of the atom), the integer encoding
    of [Program.to], [compute_additions], [conditions_dict_for_solution],
    [coin_as_list] and [LineageProof] with its [to_program] come from
    clvm, chia_rs and modules outside the sources.  [SINGLETON_MOD] and
    [LAUNCHER_PUZZLE_HASH] are compiled puzzles shipped as data. *)
Class Clvm : Type := {
  get_tree_hash : Program -> bytes32;
  coin_name : Coin -> bytes32;
  uncurry : Program -> Program * Program;
  curry : Program -> list Program -> Program;
  as_iter : Program -> result (list Program);
  int_to_bytes : Z -> bytes;
  int_from_bytes : bytes -> Z;
  compute_additions : CoinSpend -> result (list Coin);
  conditions_dict_for_solution :
    Program -> Program -> Z -> result (gmap N (list ConditionWithArgs));
  coin_as_list : Coin -> list Castable;
  LineageProof : Type;
  to_program : LineageProof -> Program;
  SINGLETON_MOD : Program;
  LAUNCHER_PUZZLE_HASH : bytes32
}.

(** [Program.to]: integers become atoms through the library's encoding,
    a Python list becomes a nil-terminated chain of pairs. *)
Fixpoint Program_to `{Clvm} (v : Castable) : Program :=
  match v with
  | CProgram p => p
  | CBytes b => Atom b
  | CInt z => Atom (int_to_bytes z)
  | CPair a b => Pair (Program_to a) (Program_to b)
  | CList l =>
      (fix to_list (l : list Castable) : Program :=
         match l with
         | [] => nil_program
         | x :: r => Pair (Program_to x) (to_list r)
         end) l
  end.

(** ** Python built-ins the code relies on *)

(** [sum(l)] *)
Definition py_sum (l : list Z) : Z := fold_left Z.add l 0.

(** The message of the [ValueError] that [min] raises on an empty list
    (worded "min() iterable argument is empty" by later interpreters). *)
Definition MIN_EMPTY : string := "min() arg is an empty sequence".

(** [min(l)]: raises [ValueError] on an empty list. *)
Definition py_min (l : list Z) : result Z :=
  match l with
  | [] => raise (ValueError MIN_EMPTY)
  | x :: r => Ok (fold_left Z.min r x)
  end.

(** [l[i]] for an integer [i]: negative indices count from the end,
    anything outside raises [IndexError]. *)
Definition py_getitem {A} (l : list A) (i : Z) : result A :=
  let n := Z.of_nat (length l) in
  let j := if i <? 0 then i + n else i in
  if (j <? 0) || (n <=? j) then raise IndexError
  else match l !! Z.to_nat j with
       | Some x => Ok x
       | None => raise IndexError
       end.

(** A [for] loop that appends [f x] for each [x] and stops at the first
    exception. *)
Fixpoint for_each {A B} (f : A -> result B) (l : list A) : result (list B) :=
  match l with
  | [] => Ok []
  | x :: r =>
      match f x with
      | inl e => inl e
      | inr y =>
          match for_each f r with
          | inl e => inl e
          | inr ys => Ok (y :: ys)
          end
      end
  end.

End Base.
Import Base.

(** * The lifecycle test's solver registry and singleton wallet
    ([chia/_tests/wallet/test_singleton_lifecycle_fast.py]) *)
Module singleton_lifecycle.

(** ** [PuzzleDB]: a dict from tree hash to puzzle.  [add_puzzle]
    stores [Program.from_bytes(bytes(puzzle))], the same tree. *)
Abbreviation PuzzleDB := (gmap bytes32 Program).

(** A builder ([Solver_F]) receives the solver to call back into; the
    callback is [Solver.solve] of that same solver.  [Kwargs] is the type
    of the keyword arguments handed through to the builders. *)
Abbreviation SolveCallback Kwargs :=
  (PuzzleDB -> Program -> Kwargs -> result Program).
Abbreviation Solver_F Kwargs :=
  (SolveCallback Kwargs -> PuzzleDB -> list Program -> Kwargs -> result Program).

Section WithClvm.
Context `{L : Clvm}.

Definition add_puzzle (puzzle : Program) (db : PuzzleDB) : PuzzleDB :=
  <[get_tree_hash puzzle := puzzle]> db.

Definition puzzle_for_hash (db : PuzzleDB) (puzzle_hash : bytes32) : option Program :=
  db !! puzzle_hash.

(** ** [Solver] *)
Section Solver.
Variable Kwargs : Type.

Record Solver : Type := mkSolver {
  solvers_by_puzzle_hash : gmap bytes32 (Solver_F Kwargs)
}.

Definition empty_solver : Solver := mkSolver ∅.

(** [register_solver]; the message's rendering of the hash is left out. *)
Definition register_solver (puzzle_hash : bytes32) (solver_f : Solver_F Kwargs) (self : Solver)
  : result Solver :=
  match solvers_by_puzzle_hash self !! puzzle_hash with
  | Some _ => raise (ValueError "solver registered for")
  | None => Ok (mkSolver (<[puzzle_hash := solver_f]> (solvers_by_puzzle_hash self)))
  end.

(** Lines 117-122 of [solve]: the hash under which the builder is looked
    up and the argument list it will receive. *)
Definition solve_lookup_key (self : Solver) (puzzle : Program)
  : result (bytes32 * list Program) :=
  let puzzle_hash := get_tree_hash puzzle in
  match solvers_by_puzzle_hash self !! puzzle_hash with
  | Some _ => Ok (puzzle_hash, [])
  | None =>
      let '(puzzle_template, args) := uncurry puzzle in
      puzzle_args ← as_iter args;
      Ok (get_tree_hash puzzle_template, puzzle_args)
  end.

(** One activation of [solve]; [recur] stands for the nested calls a
    builder makes through the solver it is handed. *)
Definition solve_body (recur : SolveCallback Kwargs) (self : Solver)
    (puzzle_db : PuzzleDB) (puzzle : Program) (kwargs : Kwargs) : result Program :=
  '(puzzle_hash, puzzle_args) ← solve_lookup_key self puzzle;
  match solvers_by_puzzle_hash self !! puzzle_hash with
  | Some solver_f => solver_f recur puzzle_db puzzle_args kwargs
  | None => raise (ValueError "can't solve")
  end.

(** [Solver.solve].  [depth] is the number of nested activations the
    interpreter's call stack still allows. *)
Fixpoint solve (depth : nat) (self : Solver)
    (puzzle_db : PuzzleDB) (puzzle : Program) (kwargs : Kwargs) : result Program :=
  match depth with
  | O => raise RecursionError
  | S d => solve_body (solve d self) self puzzle_db puzzle kwargs
  end.

End Solver.

(** ** Keyword arguments and three of the registered builders *)

(** The values passed as keyword arguments, by their Python type. *)
Inductive KwargValue : Type :=
  | KwProgram (p : Program)
  | KwUint64 (n : Z)
  | KwBytes32 (b : bytes32)
  | KwStr (x : string)
  | KwProgramList (l : list Program).

Variant TypeHint : Type := HProgram | HUint64 | HBytes32 | HStr | HProgramList.

(** [satisfies_hint] on these values: the value's type is the hinted one. *)
Definition satisfies_hint (obj : KwargValue) (type_hint : TypeHint) : bool :=
  match obj, type_hint with
  | KwProgram _, HProgram | KwUint64 _, HUint64 | KwBytes32 _, HBytes32
  | KwStr _, HStr | KwProgramList _, HProgramList => true
  | _, _ => false
  end.

(** [from_kwargs]; the [TypeError] message's rendering of the two types
    is left out. *)
Definition from_kwargs (kwargs : gmap string KwargValue) (key : string)
    (type_info : TypeHint) : result KwargValue :=
  match kwargs !! key with
  | None =>
      raise (ValueError (String.append "`" (String.append key "` missing in call to `solve`")))
  | Some v =>
      if satisfies_hint v type_info then Ok v
      else raise (TypeError (String.append "`" (String.append key "` must be of type")))
  end.

Definition solve_anyone_can_spend : Solver_F (gmap string KwargValue) :=
  fun solver puzzle_db args kwargs =>
    conditions ← from_kwargs kwargs "conditions" HProgramList;
    match conditions with
    | KwProgramList l => Ok (Program_to (CList (map CProgram l)))
    | _ => raise (TypeError "must be of type")
    end.

Definition solve_anyone_can_spend_with_padding : Solver_F (gmap string KwargValue) :=
  fun solver puzzle_db args kwargs =>
    conditions ← from_kwargs kwargs "conditions" HProgramList;
    match conditions with
    | KwProgramList l => Ok (Program_to (CPair (CInt 0) (CList (map CProgram l))))
    | _ => raise (TypeError "must be of type")
    end.

(** [Program.rest] *)
Definition rest (p : Program) : result Program :=
  match p with
  | Pair _ r => Ok r
  | Atom _ => raise (ValueError "rest of non-cons")
  end.

Definition solve_singleton : Solver_F (gmap string KwargValue) :=
  fun solver puzzle_db args kwargs =>
    match args with
    | [_; inner_puzzle] =>
        inner_solution ← solver puzzle_db inner_puzzle kwargs;
        lineage_proof ← from_kwargs kwargs "lineage_proof" HProgram;
        coin_amount ← from_kwargs kwargs "coin_amount" HUint64;
        inner_rest ← rest inner_solution;
        match lineage_proof, coin_amount with
        | KwProgram lp, KwUint64 amt =>
            Ok (Program_to (CList [CProgram lp; CInt amt; CProgram inner_rest]))
        | _, _ => raise (TypeError "must be of type")
        end
    | [] | [_] => raise (ValueError "not enough values to unpack")
    | _ => raise (ValueError "too many values to unpack")
    end.

(** ** [SingletonWallet] *)
Record SingletonWallet : Type := mkSingletonWallet {
  launcher_id : bytes32;
  launcher_puzzle_hash : bytes32;
  key_value_list : Program;
  current_state : Coin;
  lineage_proof : Program
}.

#[global] Instance SingletonWallet_eq_dec : EqDecision SingletonWallet.
Proof. solve_decision. Defined.

(** Unpacking [_, inner_puzzle = list(args.as_iter())]. *)
Definition unpack2 (l : list Program) : result (Program * Program) :=
  match l with
  | [a; b] => Ok (a, b)
  | [] | [_] => raise (ValueError "not enough values to unpack")
  | _ => raise (ValueError "too many values to unpack")
  end.

Definition inner_puzzle_for_puzzle (self : SingletonWallet) (puzzle : Program)
  : result Program :=
  _ ← py_assert (bool_decide (get_tree_hash puzzle = puzzle_hash (current_state self)));
  let '(template, args) := uncurry puzzle in
  _ ← py_assert (bool_decide (template = SINGLETON_MOD));
  items ← as_iter args;
  '(_, inner_puzzle) ← unpack2 items;
  Ok inner_puzzle.

(** The inner loop of [update_state], over the coins one spend creates.
    The wallet object is mutated in place, so the wallet reached when an
    assertion fails is returned with the exception. *)
Fixpoint update_state_additions (puzzle_db : PuzzleDB) (coin_spend : CoinSpend)
    (additions : list Coin) (self : SingletonWallet) (state_change_count : Z)
  : SingletonWallet * result Z :=
  match additions with
  | [] => (self, Ok state_change_count)
  | c :: rest =>
      if Z.land (amount c) 1 =? 1 then
        let parent_puzzle_hash := puzzle_hash (coin coin_spend) in
        match puzzle_for_hash puzzle_db parent_puzzle_hash with
        | None => (self, raise AssertionError)
        | Some parent_puzzle =>
            match inner_puzzle_for_puzzle self parent_puzzle with
            | inl e => (self, inl e)
            | inr parent_inner_puzzle =>
                let parent_inner_puzzle_hash := get_tree_hash parent_inner_puzzle in
                let new_lineage_proof :=
                  Program_to
                    (CList [CBytes (parent_coin_info (current_state self));
                            CBytes parent_inner_puzzle_hash;
                            CInt (amount c)]) in
                update_state_additions puzzle_db coin_spend rest
                  {| launcher_id := launcher_id self;
                     launcher_puzzle_hash := launcher_puzzle_hash self;
                     key_value_list := key_value_list self;
                     current_state := c;
                     lineage_proof := new_lineage_proof |}
                  (state_change_count + 1)
            end
        end
      else update_state_additions puzzle_db coin_spend rest self state_change_count
  end.

(** The outer loop, over [removals]; [current_coin_name] was read once,
    before the loop. *)
Fixpoint update_state_removals (puzzle_db : PuzzleDB) (current_coin_name : bytes32)
    (removals : list CoinSpend) (self : SingletonWallet) (state_change_count : Z)
  : SingletonWallet * result Z :=
  match removals with
  | [] => (self, Ok state_change_count)
  | coin_spend :: rest =>
      if bool_decide (coin_name (coin coin_spend) = current_coin_name) then
        match compute_additions coin_spend with
        | inl e => (self, inl e)
        | inr additions =>
            match update_state_additions puzzle_db coin_spend additions self
                    state_change_count with
            | (self', inr count') =>
                update_state_removals puzzle_db current_coin_name rest self' count'
            | (self', inl e) => (self', inl e)
            end
        end
      else
        update_state_removals puzzle_db current_coin_name rest self state_change_count
  end.

(** [SingletonWallet.update_state]: the wallet afterwards, and the count
    returned or the exception raised. *)
Definition update_state (self : SingletonWallet) (puzzle_db : PuzzleDB)
    (removals : list CoinSpend) : SingletonWallet * result Z :=
  update_state_removals puzzle_db (coin_name (current_state self)) removals self 0.

(** Unpacking [_, __, ___, inner_puzzle = list(args.as_iter())]. *)
Definition unpack4 (l : list Program) : result (Program * Program * Program * Program) :=
  match l with
  | [a; b; c; d] => Ok (a, b, c, d)
  | _ :: _ :: _ :: _ :: _ :: _ => raise (ValueError "too many values to unpack")
  | _ => raise (ValueError "not enough values to unpack")
  end.

Definition lineage_proof_for_coin_spend (coin_spend : CoinSpend) : result Program :=
  let c := coin coin_spend in
  let parent_name := parent_coin_info c in
  let amount := amount c in
  if bool_decide (puzzle_hash c = LAUNCHER_PUZZLE_HASH) then
    Ok (Program_to (CList [CBytes parent_name; CInt amount]))
  else
    let full_puzzle := puzzle_reveal coin_spend in
    let '(_, args) := uncurry full_puzzle in
    items ← as_iter args;
    '(_, _, _, inner_puzzle) ← unpack4 items;
    let inner_puzzle_hash := get_tree_hash inner_puzzle in
    Ok (Program_to (CList [CBytes parent_name; CBytes inner_puzzle_hash; CInt amount])).

(** [singleton_puzzle]: the singleton template curried with the
    singleton struct [(MOD_HASH . (launcher_id . launcher_puzzle_hash))]
    and the inner puzzle. *)
Definition singleton_puzzle (launcher_id launcher_puzzle_hash : bytes32)
    (inner_puzzle : Program) : Program :=
  curry SINGLETON_MOD
    [Pair (Atom (get_tree_hash SINGLETON_MOD))
          (Pair (Atom launcher_id) (Atom launcher_puzzle_hash));
     inner_puzzle].

(** ** Vocabulary for the properties of [update_state] *)

(** A created coin continues the singleton when its amount is odd. *)
Definition odd_amount (c : Coin) : Prop := Z.land (amount c) 1 = 1.

(** A spend consumes the coin of that name. *)
Definition spends_coin (name : bytes32) (s : CoinSpend) : Prop :=
  coin_name (coin s) = name.

#[global] Instance odd_amount_dec (c : Coin) : Decision (odd_amount c).
Proof. unfold odd_amount. apply _. Defined.

#[global] Instance spends_coin_dec (name : bytes32) (s : CoinSpend) :
  Decision (spends_coin name s).
Proof. unfold spends_coin. apply _. Defined.

(** The lineage proof [update_state] stores for an odd child. *)
Definition stored_lineage_proof (self : SingletonWallet) (inner : Program) (child : Coin)
  : Program :=
  Program_to
    (CList [CBytes (parent_coin_info (current_state self));
            CBytes (get_tree_hash inner);
            CInt (amount child)]).

(** The wallet after [update_state] has moved it to [child]. *)
Definition advanced (self : SingletonWallet) (inner : Program) (child : Coin)
  : SingletonWallet :=
  {| launcher_id := launcher_id self;
     launcher_puzzle_hash := launcher_puzzle_hash self;
     key_value_list := key_value_list self;
     current_state := child;
     lineage_proof := stored_lineage_proof self inner child |}.

End WithClvm.
End singleton_lifecycle.

(** * CAT ring spends ([chia/wallet/cat_wallet/cat_utils.py]) *)
Module cat_utils.
Section WithClvm.
Context `{L : Clvm}.

(** The default-constructed [G2Element()], the only signature built here. *)
Variant G2Element : Type := G2Element_default.
Definition NULL_SIGNATURE : G2Element := G2Element_default.

Record WalletSpendBundle : Type := mkWalletSpendBundle {
  coin_spends : list CoinSpend;
  aggregated_signature : G2Element
}.

Record SpendableCAT : Type := mkSpendableCAT {
  coin : Coin;
  limitations_program_hash : bytes32;
  inner_puzzle : Program;
  inner_solution : Program;
  limitations_solution : Program;
  lineage_proof : LineageProof;
  extra_delta : Z;
  limitations_program_reveal : Program
}.

Definition construct_cat_puzzle (mod_code : Program) (limitations_program_hash : bytes32)
    (inner_puzzle_or_hash : Castable) (mod_code_hash : option bytes32) : Program :=
  let mod_code_hash :=
    match mod_code_hash with
    | None => get_tree_hash mod_code
    | Some h => h
    end in
  curry mod_code
    (map Program_to
       [CBytes mod_code_hash; CBytes limitations_program_hash; inner_puzzle_or_hash]).

(** The first loop of [subtotals_for_deltas]: the list built so far and
    the running subtotal. *)
Definition subtotals_loop (deltas : list Z) : list Z * Z :=
  fold_left (fun '(subtotals, subtotal) delta => (subtotals ++ [subtotal], subtotal + delta))
    deltas ([], 0).

(** The running subtotals from a start value: one per delta, each taken
    before its delta is added. *)
Fixpoint prefixes (start : Z) (deltas : list Z) : list Z :=
  match deltas with
  | [] => []
  | d :: r => start :: prefixes (start + d) r
  end.

Definition subtotals_for_deltas (deltas : list Z) : result (list Z) :=
  let subtotals := fst (subtotals_loop deltas) in
  subtotal_offset ← py_min subtotals;
  Ok (map (fun s => s - subtotal_offset) subtotals).

Definition next_info_for_spendable_cat (spendable_cat : SpendableCAT) : Program :=
  let c := coin spendable_cat in
  Program_to
    (CList [CBytes (parent_coin_info c);
            CBytes (get_tree_hash (inner_puzzle spendable_cat));
            CInt (amount c)]).

(** The one-byte string 0x8f, -113 as a CLVM integer. *)
Definition MELT_AMOUNT : bytes := [Byte.x8f].

(** The loop over the CREATE_COIN conditions of one member. *)
Fixpoint total_created (conditions : list ConditionWithArgs) (total : Z) : result Z :=
  match conditions with
  | [] => Ok total
  | c :: rest =>
      match vars c !! 1%nat with
      | None => raise IndexError
      | Some v =>
          if bool_decide (v <> MELT_AMOUNT)
          then total_created rest (total + int_from_bytes v)
          else total_created rest total
      end
  end.

(** One round of the first loop of the builder: the delta of a member. *)
Definition delta_of (spend_info : SpendableCAT) : result Z :=
  conditions ← conditions_dict_for_solution
                 (inner_puzzle spend_info) (inner_solution spend_info) INFINITE_COST;
  total ← total_created (default [] (conditions !! CREATE_COIN))
            (extra_delta spend_info * -1);
  Ok (amount (coin spend_info) - total).

(** One round of the last loop of the builder. *)
Definition coin_spend_at (mod_code : Program) (spendable_cat_list : list SpendableCAT)
    (subtotals : list Z) (infos_for_next infos_for_me : list Program) (ids : list bytes32)
    (N : Z) (index : Z) : result CoinSpend :=
  spend_info ← py_getitem spendable_cat_list index;
  let puzzle_reveal :=
    construct_cat_puzzle mod_code (limitations_program_hash spend_info)
      (CProgram (inner_puzzle spend_info)) None in
  let prev_index := (index - 1) `mod` N in
  let next_index := (index + 1) `mod` N in
  prev_id ← py_getitem ids prev_index;
  my_info ← py_getitem infos_for_me index;
  next_info ← py_getitem infos_for_next next_index;
  subtotal ← py_getitem subtotals index;
  let solution :=
    [CProgram (inner_solution spend_info);
     CProgram (to_program (lineage_proof spend_info));
     CBytes prev_id;
     CProgram my_info;
     CProgram next_info;
     CInt subtotal;
     CInt (extra_delta spend_info)] in
  Ok (make_spend (coin spend_info) puzzle_reveal (Program_to (CList solution))).

Definition unsigned_spend_bundle_for_spendable_cats (mod_code : Program)
    (spendable_cat_list : list SpendableCAT) : result WalletSpendBundle :=
  let N := Z.of_nat (length spendable_cat_list) in
  deltas ← for_each delta_of spendable_cat_list;
  if negb (py_sum deltas =? 0)
  then raise (ValueError "input and output amounts don't match")
  else
    subtotals ← subtotals_for_deltas deltas;
    let infos_for_next := map next_info_for_spendable_cat spendable_cat_list in
    let infos_for_me :=
      map (fun s => Program_to (CList (coin_as_list (coin s)))) spendable_cat_list in
    let ids := map (fun s => coin_name (coin s)) spendable_cat_list in
    coin_spends ←
      for_each
        (coin_spend_at mod_code spendable_cat_list subtotals infos_for_next infos_for_me ids N)
        (seqZ 0 N);
    Ok (mkWalletSpendBundle coin_spends NULL_SIGNATURE).

(** The spend the last loop builds for the member at [index]: its own
    coin, the CAT puzzle around its inner puzzle, and a solution that
    names the previous member's coin id, its own coin, the next member's
    info, its subtotal and its extra delta. *)
Definition ring_spend (mod_code : Program) (prev me next : SpendableCAT) (subtotal : Z)
  : CoinSpend :=
  make_spend (coin me)
    (construct_cat_puzzle mod_code (limitations_program_hash me)
       (CProgram (inner_puzzle me)) None)
    (Program_to
       (CList [CProgram (inner_solution me);
               CProgram (to_program (lineage_proof me));
               CBytes (coin_name (coin prev));
               CProgram (Program_to (CList (coin_as_list (coin me))));
               CProgram (next_info_for_spendable_cat next);
               CInt subtotal;
               CInt (extra_delta me)])).

End WithClvm.
End cat_utils.

(** * The ledger log store

    The store behind [add_spend], [get_spends_for_wallet], [rollback] and
    [delete_wallet] ([chia/wallet/wallet_pool_store.py]) is exercised by
    [chia/_tests/pools/test_wallet_pool_store.py] but is not among the
    sources; the definitions of this module follow the specification. *)
Module ledger_log.
Section WithClvm.
Context `{L : Clvm}.

(** Modelled from the spec: [LedgerLogEntry], the row type of the missing
    [WalletPoolStore]: owner, height and spend, keyed by owner and the
    coin id of the spend. *)
Record LedgerLogEntry : Type := mkEntry {
  owner_id : Z;
  height : N;
  spend : CoinSpend
}.

Definition coin_id (e : LedgerLogEntry) : bytes32 := coin_name (coin (spend e)).

(** Modelled from the spec: the state of the missing [WalletPoolStore]:
    the entries in append order and, per owner, the cached peak height
    (absent when the owner has no entry). *)
Record LedgerLog : Type := mkLog {
  entries : list LedgerLogEntry;
  peak_height : gmap Z N
}.

(** Modelled from the spec: the two store consistency errors of the
    missing [WalletPoolStore.add_spend]. *)
Variant LogError : Type := HeightConflictError | NonMonotonicHeightError.

Definition empty_log : LedgerLog := mkLog [] ∅.

(** Modelled from the spec: the existence check by (owner_id, coin_id) of
    the missing [WalletPoolStore]. *)
Definition has_key (owner : Z) (cid : bytes32) (l : list LedgerLogEntry) : bool :=
  bool_decide (Exists (fun e => owner_id e = owner /\ coin_id e = cid) l).

Definition has_triple (owner : Z) (cid : bytes32) (h : N) (l : list LedgerLogEntry) : bool :=
  bool_decide (Exists (fun e => owner_id e = owner /\ coin_id e = cid /\ height e = h) l).

(** The highest element of a list of heights, if any. *)
Definition highest (hs : list N) : option N :=
  match hs with
  | [] => None
  | h :: r => Some (fold_left N.max r h)
  end.

Definition heights_of (owner : Z) (l : list LedgerLogEntry) : list N :=
  map height (filter (fun e => owner_id e = owner) l).

(** Modelled from the spec: [append] (the missing
    [WalletPoolStore.add_spend]).  An identical triple is a no-op; the
    same owner and coin at another height is a height conflict; a height
    below the owner's cached peak is rejected; otherwise the entry is
    added and the peak raised.  The store is returned with the outcome. *)
Definition append (owner : Z) (s : CoinSpend) (h : N) (st : LedgerLog)
  : LedgerLog * (LogError + unit) :=
  let cid := coin_name (coin s) in
  if has_triple owner cid h (entries st) then (st, inr tt)
  else if has_key owner cid (entries st) then (st, inl HeightConflictError)
  else
    match peak_height st !! owner with
    | Some p =>
        if (h <? p)%N then (st, inl NonMonotonicHeightError)
        else (mkLog (entries st ++ [mkEntry owner h s])
                    (<[owner := N.max p h]> (peak_height st)), inr tt)
    | None =>
        (mkLog (entries st ++ [mkEntry owner h s])
               (<[owner := h]> (peak_height st)), inr tt)
    end.

(** Stable insertion by height: after every entry that is not higher. *)
Fixpoint insert_by_height (e : LedgerLogEntry) (l : list LedgerLogEntry)
  : list LedgerLogEntry :=
  match l with
  | [] => [e]
  | x :: r => if (height e <? height x)%N then e :: x :: r else x :: insert_by_height e r
  end.

(** Modelled from the spec: [entries_for] (the missing
    [WalletPoolStore.get_spends_for_wallet]): the owner's entries by
    ascending height, then append order. *)
Definition entries_for (owner : Z) (st : LedgerLog) : list (N * CoinSpend) :=
  map (fun e => (height e, spend e))
    (fold_left (fun acc e => insert_by_height e acc)
       (filter (fun e => owner_id e = owner) (entries st)) []).

(** Modelled from the spec: [rollback] (the missing
    [WalletPoolStore.rollback]): drop the owner's entries above
    [target_height], then recompute the owner's cached peak from what is
    left, or forget it when nothing is left. *)
Definition rollback (target_height : N) (owner : Z) (st : LedgerLog) : LedgerLog :=
  let kept :=
    filter (fun e => ~ (owner_id e = owner /\ (target_height < height e)%N)) (entries st) in
  mkLog kept
    (match highest (heights_of owner kept) with
     | Some p => <[owner := p]> (peak_height st)
     | None => delete owner (peak_height st)
     end).

(** Modelled from the spec: [delete_owner] (the missing
    [WalletPoolStore.delete_wallet]). *)
Definition delete_owner (owner : Z) (st : LedgerLog) : LedgerLog :=
  mkLog (filter (fun e => owner_id e <> owner) (entries st))
        (delete owner (peak_height st)).

(** The cache is consistent when it holds, for every owner, the highest
    recorded height. *)
Definition peak_consistent (st : LedgerLog) : Prop :=
  forall owner, peak_height st !! owner = highest (heights_of owner (entries st)).

End WithClvm.
End ledger_log.

(** * A small implementation of the libraries

    Enough of CLVM to run the modelled code on concrete inputs: the
    signed big-endian integer encoding, the curry form
    [(a (q . mod) (c (q . arg) ... 1))], an injective serialisation in
    place of the hashes, and evaluation of the puzzles [1] and
    [(q . conditions)], bare or as the inner puzzle of a singleton. *)
Module Reference.

Definition byte_of (n : Z) : byte := default Byte.x00 (Byte.of_N (Z.to_N n)).
Definition byte_val (b : byte) : Z := Z.of_N (Byte.to_N b).

(** [v.to_bytes(count, "big", signed=True)] *)
Fixpoint to_bytes_be (count : nat) (v : Z) : bytes :=
  match count with
  | O => []
  | S k => to_bytes_be k (v / 256) ++ [byte_of (v `mod` 256)]
  end.

(** Drop leading bytes that the sign of the next byte makes redundant. *)
Fixpoint strip_redundant (r : bytes) : bytes :=
  match r with
  | a :: ((b :: _) as tl) =>
      if byte_val a =? (if 128 <=? byte_val b then 255 else 0)
      then strip_redundant tl else r
  | _ => r
  end.

Definition int_to_bytes (v : Z) : bytes :=
  if v =? 0 then []
  else
    let bit_length := Z.log2 (Z.abs v) + 1 in
    let byte_count := Z.to_nat ((bit_length + 8) / 8) in
    strip_redundant (to_bytes_be byte_count v).

Definition int_from_bytes (b : bytes) : Z :=
  match b with
  | [] => 0
  | x :: _ =>
      let u := fold_left (fun acc y => acc * 256 + byte_val y) b 0 in
      if 128 <=? byte_val x then u - 2 ^ (8 * Z.of_nat (length b)) else u
  end.

Definition is_atom (p : Program) (a : bytes) : bool :=
  match p with
  | Atom b => bool_decide (b = a)
  | Pair _ _ => false
  end.

Definition A_KW : bytes := [Byte.x02].
Definition Q_KW : bytes := [Byte.x01].
Definition C_KW : bytes := [Byte.x04].

Definition list_to_program (l : list Program) : Program :=
  fold_right Pair nil_program l.

Definition curry (mod_code : Program) (args : list Program) : Program :=
  let fixed_args :=
    fold_right
      (fun arg rest =>
         Pair (Atom C_KW) (Pair (Pair (Atom Q_KW) arg) (Pair rest nil_program)))
      (Atom Q_KW) args in
  Pair (Atom A_KW) (Pair (Pair (Atom Q_KW) mod_code) (Pair fixed_args nil_program)).

(** The arguments of [(c (q . arg) rest)] chains ending in [1]. *)
Fixpoint curried_args (p : Program) : option (list Program) :=
  match p with
  | Atom a => if bool_decide (a = Q_KW) then Some [] else None
  | Pair c (Pair (Pair q arg) (Pair rest tail)) =>
      if is_atom c C_KW && is_atom q Q_KW && is_atom tail []
      then cons arg <$> curried_args rest
      else None
  | _ => None
  end.

(** [uncurry]: a program that is not in curry form is its own template,
    with no arguments. *)
Definition uncurry (p : Program) : Program * Program :=
  match p with
  | Pair a (Pair (Pair q mod_code) (Pair fixed_args tail)) =>
      if is_atom a A_KW && is_atom q Q_KW && is_atom tail []
      then match curried_args fixed_args with
           | Some args => (mod_code, list_to_program args)
           | None => (p, nil_program)
           end
      else (p, nil_program)
  | _ => (p, nil_program)
  end.

Fixpoint as_iter (p : Program) : result (list Program) :=
  match p with
  | Atom [] => Ok []
  | Atom _ => raise (ValueError "first of non-cons")
  | Pair x r => cons x <$> as_iter r
  end.

(** An injective serialisation, standing for sha256 tree hashing. *)
Definition escape (a : bytes) : bytes :=
  flat_map (fun b => [Byte.x01; b]) a ++ [Byte.x00].

Fixpoint get_tree_hash (p : Program) : bytes32 :=
  match p with
  | Atom a => Byte.x01 :: escape a
  | Pair x r => Byte.x02 :: get_tree_hash x ++ get_tree_hash r
  end.

Definition coin_name (c : Coin) : bytes32 :=
  escape (parent_coin_info c) ++ escape (puzzle_hash c) ++ int_to_bytes (amount c).

Definition SINGLETON_MOD : Program := Atom [Byte.x53; Byte.x49; Byte.x4e; Byte.x47].
Definition LAUNCHER_PUZZLE : Program := Atom [Byte.x4c; Byte.x41; Byte.x55].
Definition LAUNCHER_PUZZLE_HASH : bytes32 := get_tree_hash LAUNCHER_PUZZLE.

(** Evaluation of the two plain puzzles: [1] returns its solution and
    [(q . body)] returns [body]. *)
Definition run_plain (puzzle solution : Program) : option Program :=
  match puzzle with
  | Atom a => if bool_decide (a = Q_KW) then Some solution else None
  | Pair q body => if is_atom q Q_KW then Some body else None
  end.

(** A plain puzzle runs as it is; a singleton runs its plain inner puzzle
    on the whole solution (the singleton layer's own checks of lineage
    and of the number of odd outputs are not part of this evaluator). *)
Definition run (puzzle solution : Program) : result Program :=
  match run_plain puzzle solution with
  | Some r => Ok r
  | None =>
      let '(template, args) := uncurry puzzle in
      if bool_decide (template = SINGLETON_MOD) then
        match as_iter args with
        | inr [_; inner] =>
            match run_plain inner solution with
            | Some r => Ok r
            | None => raise (EvalError "clvm raise")
            end
        | _ => raise (EvalError "clvm raise")
        end
      else raise (EvalError "clvm raise")
  end.

Definition atom_bytes (p : Program) : result bytes :=
  match p with
  | Atom a => Ok a
  | Pair _ _ => raise (EvalError "atom expected")
  end.

(** A condition [(opcode var ...)] as opcode and byte-string arguments. *)
Definition parse_condition (p : Program) : result ConditionWithArgs :=
  items ← as_iter p;
  atoms ← for_each atom_bytes items;
  match atoms with
  | [op] :: args => Ok (mkCondition (Byte.to_N op) args)
  | _ => raise (EvalError "bad condition")
  end.

Definition conditions_of (puzzle solution : Program) : result (list ConditionWithArgs) :=
  r ← run puzzle solution;
  items ← as_iter r;
  for_each parse_condition items.

Definition created_coin (parent : bytes32) (c : ConditionWithArgs) : list Coin :=
  if (opcode c =? CREATE_COIN)%N then
    match vars c with
    | ph :: amt :: _ => [mkCoin parent ph (int_from_bytes amt)]
    | _ => []
    end
  else [].

Definition compute_additions (cs : CoinSpend) : result (list Coin) :=
  conditions ← conditions_of (puzzle_reveal cs) (solution cs);
  Ok (flat_map (created_coin (coin_name (coin cs))) conditions).

Definition conditions_dict_for_solution (puzzle solution : Program) (max_cost : Z)
  : result (gmap N (list ConditionWithArgs)) :=
  conditions ← conditions_of puzzle solution;
  Ok (fold_left
        (fun (d : gmap N (list ConditionWithArgs)) c =>
           <[opcode c := default [] (d !! opcode c) ++ [c]]> d)
        conditions ∅).

Definition coin_as_list (c : Coin) : list Castable :=
  [CBytes (parent_coin_info c); CBytes (puzzle_hash c); CInt (amount c)].

(** [LineageProof]: three optional fields; [to_program] lists those present. *)
Definition LineageProof : Type := option bytes32 * option bytes32 * option Z.

Definition to_program (lp : LineageProof) : Program :=
  let '(parent_name, inner_puzzle_hash, amount) := lp in
  list_to_program
    (option_list (Atom <$> parent_name) ++ option_list (Atom <$> inner_puzzle_hash)
       ++ option_list ((fun z => Atom (int_to_bytes z)) <$> amount)).

#[global] Instance clvm : Clvm := {|
  Base.get_tree_hash := get_tree_hash;
  Base.coin_name := coin_name;
  Base.uncurry := uncurry;
  Base.curry := curry;
  Base.as_iter := as_iter;
  Base.int_to_bytes := int_to_bytes;
  Base.int_from_bytes := int_from_bytes;
  Base.compute_additions := compute_additions;
  Base.conditions_dict_for_solution := conditions_dict_for_solution;
  Base.coin_as_list := coin_as_list;
  Base.LineageProof := LineageProof;
  Base.to_program := to_program;
  Base.SINGLETON_MOD := SINGLETON_MOD;
  Base.LAUNCHER_PUZZLE_HASH := LAUNCHER_PUZZLE_HASH
|}.

End Reference.

(** * Concrete inputs

    A singleton wallet, spends of its coin, a solver registry, two CAT
    coins and a log, over the implementation of [Reference]. *)
Module Scenario.

Import Reference.
Import singleton_lifecycle.

(** The condition [(51 puzzle_hash amount)]. *)
Definition create_coin (ph : bytes32) (amt : Z) : Program :=
  list_to_program [Atom [Byte.x33]; Atom ph; Atom (int_to_bytes amt)].

Definition LAUNCHER_ID : bytes32 := [Byte.x11].

(** [Program.to(1)], which returns its solution as the conditions. *)
Definition ANYONE_CAN_SPEND_PUZZLE : Program := Atom Q_KW.

Definition full_puzzle : Program :=
  singleton_puzzle LAUNCHER_ID LAUNCHER_PUZZLE_HASH ANYONE_CAN_SPEND_PUZZLE.

(** The wallet's coin: a singleton of amount 3. *)
Definition current_coin : Coin := mkCoin [Byte.xaa] (get_tree_hash full_puzzle) 3.

Definition wallet : SingletonWallet :=
  {| launcher_id := LAUNCHER_ID;
     launcher_puzzle_hash := LAUNCHER_PUZZLE_HASH;
     key_value_list := nil_program;
     current_state := current_coin;
     lineage_proof := list_to_program [Atom [Byte.x99]; Atom (int_to_bytes 3)] |}.

Definition puzzle_db : gmap bytes32 Program := add_puzzle full_puzzle ∅.

(** The coin spent to an odd child of amount 1 and a payment of 2. *)
Definition continuing_spend : CoinSpend :=
  make_spend current_coin full_puzzle
    (list_to_program [create_coin [Byte.xbb] 1; create_coin [Byte.xcc] 2]).

Definition child : Coin := mkCoin (coin_name current_coin) [Byte.xbb] 1.


(** The coin spent to two odd-amount coins that keep its puzzle hash. *)
Definition two_odd_spend : CoinSpend :=
  make_spend current_coin full_puzzle
    (list_to_program [create_coin (puzzle_hash current_coin) 1;
                      create_coin (puzzle_hash current_coin) 3]).

(** A registry with the builders of the singleton and of puzzle [1]. *)
Definition solver : Solver (gmap string KwargValue) :=
  mkSolver _
    (<[get_tree_hash SINGLETON_MOD := solve_singleton]>
       (<[get_tree_hash ANYONE_CAN_SPEND_PUZZLE := solve_anyone_can_spend]> ∅)).

Definition kwargs : gmap string KwargValue :=
  <["conditions" := KwProgramList [create_coin [Byte.xbb] 1]]> ∅.

(** Two CAT coins: 10 paying out 7, and 5 paying out 8. *)
Definition cat_a : cat_utils.SpendableCAT :=
  cat_utils.mkSpendableCAT (mkCoin [Byte.xa1] [Byte.xa2] 10) [Byte.x7a]
    (Pair (Atom Q_KW) (list_to_program [create_coin [Byte.xd1] 7])) nil_program
    nil_program (None, None, None) 0 nil_program.

Definition cat_b : cat_utils.SpendableCAT :=
  cat_utils.mkSpendableCAT (mkCoin [Byte.xb1] [Byte.xb2] 5) [Byte.x7a]
    (Pair (Atom Q_KW) (list_to_program [create_coin [Byte.xd2] 8])) nil_program
    nil_program (None, None, None) 0 nil_program.

Definition CAT_MOD : Program := Atom [Byte.x43; Byte.x41; Byte.x54].

(** Seven spends of distinct coins for the log. *)
Definition log_spend (i : Z) : CoinSpend :=
  make_spend (mkCoin [Byte.xee] [Byte.xef] i) nil_program nil_program.

Definition six_entries : ledger_log.LedgerLog :=
  ledger_log.mkLog
    [ledger_log.mkEntry 1 100 (log_spend 1); ledger_log.mkEntry 1 100 (log_spend 2);
     ledger_log.mkEntry 1 100 (log_spend 3); ledger_log.mkEntry 1 101 (log_spend 4);
     ledger_log.mkEntry 1 105 (log_spend 5); ledger_log.mkEntry 1 105 (log_spend 6)]
    {[ 1 := 105%N ]}.

(** The log after [append 1 (log_spend 1) 100] on the empty log. *)
Definition one_entry : ledger_log.LedgerLog :=
  fst (ledger_log.append 1 (log_spend 1) 100 ledger_log.empty_log).

End Scenario.

(** * Further code of the same files *)

(** ** [Program.first] and [Program.at]

    [at] follows a path of [f] and [r] characters, lowered first, and
    refuses any other character. *)
Module program.

Definition first (p : Program) : result Program :=
  match p with
  | Pair f _ => Ok f
  | Atom _ => raise (ValueError "first of non-cons")
  end.

Fixpoint Program_at (position : string) (v : Program) : result Program :=
  match position with
  | EmptyString => Ok v
  | String c tail =>
      if Ascii.eqb c "f" || Ascii.eqb c "F" then
        v' ← first v; Program_at tail v'
      else if Ascii.eqb c "r" || Ascii.eqb c "R" then
        v' ← singleton_lifecycle.rest v; Program_at tail v'
      else raise (ValueError "`at` got illegal character")
  end.

End program.

(** ** Recognising CAT puzzles ([chia/wallet/cat_wallet/cat_utils.py]) *)
Module cat_matching.
Section WithClvm.
Context `{L : Clvm}.

(** [CAT_MOD] is the compiled CAT puzzle, shipped as data. *)
Variable CAT_MOD : Program.

(** [UncurriedPuzzle]: a template and its curried arguments
    (the field [mod] is written [mod_]). *)
Record UncurriedPuzzle : Type := mkUncurriedPuzzle {
  mod_ : Program;
  args : Program
}.

(** [match_cat_puzzle]; the iterator returned is given by what iterating
    it to the end yields. *)
Definition match_cat_puzzle (puzzle : UncurriedPuzzle) : option (result (list Program)) :=
  if bool_decide (mod_ puzzle = CAT_MOD) then Some (as_iter (args puzzle)) else None.

Definition get_innerpuzzle_from_puzzle (puzzle : Program) : result Program :=
  let '(mod_code, curried_args) := uncurry puzzle in
  if bool_decide (mod_code = CAT_MOD) then program.Program_at "rrf" curried_args
  else raise (ValueError "Not a CAT puzzle").

(** The amounts that the first loop of the builder adds up: the second
    argument of every CREATE_COIN condition, read as an integer, except
    the melt marker. *)
Definition created_amounts (conditions : list ConditionWithArgs) : list Z :=
  map int_from_bytes
    (filter (fun v => v <> cat_utils.MELT_AMOUNT) (omap (fun c => vars c !! 1%nat) conditions)).

End WithClvm.
End cat_matching.

(** ** More of the lifecycle test's helpers
    ([chia/_tests/wallet/test_singleton_lifecycle_fast.py]) *)
Module singleton_helpers.
Section WithClvm.
Context `{L : Clvm}.

Import singleton_lifecycle.

(** [SingletonWallet.inner_puzzle]: [None] when the database has no
    puzzle for the current coin. *)
Definition inner_puzzle (self : SingletonWallet) (puzzle_db : PuzzleDB)
  : result (option Program) :=
  match puzzle_for_hash puzzle_db (puzzle_hash (current_state self)) with
  | None => Ok None
  | Some puzzle => Some <$> inner_puzzle_for_puzzle self puzzle
  end.

Definition solve_p2_singleton : Solver_F (gmap string KwargValue) :=
  fun solver puzzle_db args kwargs =>
    p2_singleton_spend_type ← from_kwargs kwargs "p2_singleton_spend_type" HStr;
    match p2_singleton_spend_type with
    | KwStr spend_type =>
        let allowable := ["claim-p2-nft"; "delayed-spend"] in
        if negb (bool_decide (spend_type ∈ allowable)) then
          raise (ValueError
            "`p2_singleton_spend_type` must be one of claim-p2-nft/delayed-spend for P2_SINGLETON puzzle")
        else
          let claim_p2_nft := bool_decide (spend_type = "claim-p2-nft") in
          if claim_p2_nft then
            singleton_inner_puzzle_hash ←
              from_kwargs kwargs "singleton_inner_puzzle_hash" HBytes32;
            p2_singleton_coin_name ← from_kwargs kwargs "p2_singleton_coin_name" HBytes32;
            match singleton_inner_puzzle_hash, p2_singleton_coin_name with
            | KwBytes32 h, KwBytes32 n => Ok (Program_to (CList [CBytes h; CBytes n]))
            | _, _ => raise (TypeError "must be of type")
            end
          else raise (ValueError "can't solve `delayed-spend` yet")
    | _ => raise (TypeError "must be of type")
    end.

(** The keywords that the calls below [coin_spend_for_conditions] bind
    themselves: [lineage_proof] and [coin_amount] in the call of
    [solve_puzzle], [puzzle] as its parameter and [self] as the one of
    [Solver.solve].  Passing one of them again is a [TypeError] of the
    call. *)
Definition bound_keywords : list string :=
  ["lineage_proof"; "coin_amount"; "puzzle"; "self"].

(** [SingletonWallet.coin_spend_for_conditions], with [solve_puzzle]
    inlined; [SOLVER] is the module's registry and [depth] the call
    stack left for [Solver.solve]. *)
Definition coin_spend_for_conditions (SOLVER : Solver (gmap string KwargValue))
    (depth : nat) (self : SingletonWallet) (puzzle_db : PuzzleDB)
    (kwargs : gmap string KwargValue) : result CoinSpend :=
  let coin := current_state self in
  match puzzle_for_hash puzzle_db (puzzle_hash coin) with
  | None => raise AssertionError
  | Some puzzle_reveal =>
      if bool_decide (Exists (fun k => is_Some (kwargs !! k)) bound_keywords) then
        raise (TypeError "got multiple values for keyword argument")
      else
        solution ←
          solve _ depth SOLVER puzzle_db puzzle_reveal
            (<["lineage_proof" := KwProgram (lineage_proof self)]>
               (<["coin_amount" := KwUint64 (amount coin)]> kwargs));
        Ok (make_spend coin puzzle_reveal solution)
  end.

(** One round of the loop of [find_interesting_singletons], for a spend
    of a launcher coin. *)
Definition interesting_singleton (coin_spend : CoinSpend) : result SingletonWallet :=
  let r := solution coin_spend in
  r1 ← rest r;
  r2 ← rest r1;
  key_value_list ← program.first r2;
  additions ← compute_additions coin_spend;
  eve_coin ← py_getitem additions 0;
  lineage_proof ← lineage_proof_for_coin_spend coin_spend;
  let launcher_id := coin_name (coin coin_spend) in
  Ok (mkSingletonWallet launcher_id (puzzle_hash (coin coin_spend)) key_value_list
        eve_coin lineage_proof).

Fixpoint find_interesting_singletons_loop (removals : list CoinSpend)
    (singletons : list SingletonWallet) : result (list SingletonWallet) :=
  match removals with
  | [] => Ok singletons
  | coin_spend :: removals' =>
      if bool_decide (puzzle_hash (coin coin_spend) = LAUNCHER_PUZZLE_HASH) then
        singleton ← interesting_singleton coin_spend;
        find_interesting_singletons_loop removals' (singletons ++ [singleton])
      else find_interesting_singletons_loop removals' singletons
  end.

Definition find_interesting_singletons (removals : list CoinSpend)
  : result (list SingletonWallet) :=
  find_interesting_singletons_loop removals [].

(** [P2_SINGLETON_MOD_HASH] is the hash of a compiled puzzle shipped as data. *)
Variable P2_SINGLETON_MOD_HASH : bytes32.

Fixpoint filter_p2_singleton_loop (puzzle_db : PuzzleDB) (additions : list Coin)
    (r : list Coin) : list Coin :=
  match additions with
  | [] => r
  | coin :: additions' =>
      match puzzle_for_hash puzzle_db (puzzle_hash coin) with
      | None => filter_p2_singleton_loop puzzle_db additions' r
      | Some puzzle =>
          let '(template, _) := uncurry puzzle in
          if bool_decide (get_tree_hash template = P2_SINGLETON_MOD_HASH)
          then filter_p2_singleton_loop puzzle_db additions' (r ++ [coin])
          else filter_p2_singleton_loop puzzle_db additions' r
      end
  end.

Definition filter_p2_singleton (puzzle_db : PuzzleDB) (additions : list Coin) : list Coin :=
  filter_p2_singleton_loop puzzle_db additions [].

(** ** Vocabulary for the properties *)

(** The odd-amount coins a spend creates (none when it does not evaluate). *)
Definition odd_children (s : CoinSpend) : list Coin :=
  match compute_additions s with
  | inr additions => filter odd_amount additions
  | inl _ => []
  end.

(** What [interesting_singleton] records about a launcher spend. *)
Definition records_launch (s : CoinSpend) (w : SingletonWallet) : Prop :=
  launcher_id w = coin_name (coin s) /\
  launcher_puzzle_hash w = LAUNCHER_PUZZLE_HASH /\
  lineage_proof w
  = Program_to (CList [CBytes (parent_coin_info (coin s)); CInt (amount (coin s))]) /\
  (exists more, compute_additions s = Ok (current_state w :: more)) /\
  (exists a b more, solution s = Pair a (Pair b (Pair (key_value_list w) more))).

(** A coin is a pay-to-singleton coin for the database when its puzzle
    is known there and its template hashes to [P2_SINGLETON_MOD_HASH]. *)
Definition is_p2_singleton (puzzle_db : PuzzleDB) (c : Coin) : Prop :=
  exists puzzle, puzzle_for_hash puzzle_db (puzzle_hash c) = Some puzzle /\
    get_tree_hash (fst (uncurry puzzle)) = P2_SINGLETON_MOD_HASH.

End WithClvm.
End singleton_helpers.

(** ** More concrete inputs *)
Module MoreScenario.

Import Reference Scenario.
Import singleton_lifecycle singleton_helpers.

(** The adaptor puzzle [(a (q . 1) 3)]. *)
Definition PADDED_PUZZLE : Program :=
  list_to_program [Atom A_KW; Pair (Atom Q_KW) (Atom Q_KW); Atom [Byte.x03]].

Definition P2_SINGLETON_MOD_HASH : bytes32 := [Byte.x50; Byte.x32].

(** A registry with four of the builders. *)
Definition SOLVER : Solver (gmap string KwargValue) :=
  mkSolver _
    (<[get_tree_hash SINGLETON_MOD := solve_singleton]>
       (<[get_tree_hash PADDED_PUZZLE := solve_anyone_can_spend_with_padding]>
          (<[get_tree_hash ANYONE_CAN_SPEND_PUZZLE := solve_anyone_can_spend]>
             (<[P2_SINGLETON_MOD_HASH := solve_p2_singleton]> ∅)))).

Definition singleton_struct : Program :=
  Pair (Atom (get_tree_hash SINGLETON_MOD))
       (Pair (Atom LAUNCHER_ID) (Atom LAUNCHER_PUZZLE_HASH)).

(** A singleton around the adaptor puzzle, and a wallet at a coin of it. *)
Definition padded_full_puzzle : Program :=
  singleton_puzzle LAUNCHER_ID LAUNCHER_PUZZLE_HASH PADDED_PUZZLE.

Definition padded_wallet : SingletonWallet :=
  {| launcher_id := LAUNCHER_ID;
     launcher_puzzle_hash := LAUNCHER_PUZZLE_HASH;
     key_value_list := nil_program;
     current_state := mkCoin [Byte.xaa] (get_tree_hash padded_full_puzzle) 1;
     lineage_proof := list_to_program [Atom [Byte.x99]; Atom (int_to_bytes 1)] |}.

Definition two_conditions : list Program :=
  [create_coin [Byte.xbb] 1; create_coin [Byte.xcc] 2].

Definition solve_kwargs : gmap string KwargValue :=
  <["conditions" := KwProgramList two_conditions]>
    (<["lineage_proof" := KwProgram (lineage_proof padded_wallet)]>
       (<["coin_amount" := KwUint64 1]> ∅)).

(** The coin of [Scenario.wallet] spent to two odd-amount coins with
    puzzle hashes of their own. *)
Definition stray_odd_spend : CoinSpend :=
  make_spend current_coin full_puzzle
    (list_to_program [create_coin [Byte.xbb] 1; create_coin [Byte.xcc] 3]).

(** A launcher that is the quoted condition list creating the first
    singleton coin, and the libraries with its hash as the launcher
    puzzle hash. *)
Definition QUOTED_LAUNCHER : Program :=
  Pair (Atom Q_KW) (list_to_program [create_coin [Byte.xe1] 1]).

Definition launcher_clvm : Clvm := {|
  Base.get_tree_hash := get_tree_hash;
  Base.coin_name := coin_name;
  Base.uncurry := uncurry;
  Base.curry := curry;
  Base.as_iter := as_iter;
  Base.int_to_bytes := int_to_bytes;
  Base.int_from_bytes := int_from_bytes;
  Base.compute_additions := compute_additions;
  Base.conditions_dict_for_solution := conditions_dict_for_solution;
  Base.coin_as_list := coin_as_list;
  Base.LineageProof := LineageProof;
  Base.to_program := to_program;
  Base.SINGLETON_MOD := SINGLETON_MOD;
  Base.LAUNCHER_PUZZLE_HASH := get_tree_hash QUOTED_LAUNCHER
|}.

Definition launcher_coin : Coin := mkCoin [Byte.x0a] (get_tree_hash QUOTED_LAUNCHER) 1.

(** The launcher's solution: destination, amount and key-value list. *)
Definition launcher_spend : CoinSpend :=
  make_spend launcher_coin QUOTED_LAUNCHER
    (list_to_program [Atom [Byte.xe1]; Atom (int_to_bytes 1); Atom [Byte.x6b]]).

End MoreScenario.

(** * Transaction records ([chia/wallet/transaction_record.py]) *)
Module transaction_record.
Section WithEnums.

(** The values of [MempoolInclusionStatus] and of the two reward
    members of [TransactionType], and the two parent-id functions of
    [chia.consensus.coinbase], come from modules outside the sources. *)
Variables SUCCESS PENDING FAILED : Z.
Variables FEE_REWARD COINBASE_REWARD : Z.
Variables pool_parent_id farmer_parent_id : Z -> bytes32 -> bytes32.

Definition minimum_send_attempts : Z := 6.

(** An entry of [sent_to]: peer, inclusion status, error name if any. *)
Record SentTo : Type := mkSentTo {
  peer : string;
  status : Z;
  error : option string
}.

Record TransactionRecordOld : Type := mkTransactionRecordOld {
  confirmed_at_height : Z;
  created_at_time : Z;
  to_puzzle_hash : bytes32;
  amount : Z;
  fee_amount : Z;
  confirmed : bool;
  sent : Z;
  spend_bundle : option cat_utils.WalletSpendBundle;
  additions : list Coin;
  removals : list Coin;
  wallet_id : Z;
  sent_to : list SentTo;
  trade_id : option bytes32;
  type : Z;
  name : bytes32;
  memos : gmap bytes32 (list bytes)
}.

(** [MempoolInclusionStatus(mis)]: the member with that value, or
    [ValueError]. *)
Definition MempoolInclusionStatus (mis : Z) : result Z :=
  if bool_decide (mis ∈ [SUCCESS; PENDING; FAILED]) then Ok mis
  else raise (ValueError "is not a valid MempoolInclusionStatus").

Fixpoint is_in_mempool_loop (entries : list SentTo) : result bool :=
  match entries with
  | [] => Ok false
  | x :: entries' =>
      mis ← MempoolInclusionStatus (status x);
      if bool_decide (mis ∈ [SUCCESS; PENDING]) then Ok true
      else is_in_mempool_loop entries'
  end.

Definition is_in_mempool (self : TransactionRecordOld) : result bool :=
  is_in_mempool_loop (sent_to self).

(** [range(start, stop, -1)] *)
Definition range_down (start stop : Z) : list Z :=
  map (fun i => start - i) (seqZ 0 (start - stop)).

Fixpoint height_farmed_loop (self : TransactionRecordOld) (genesis_challenge : bytes32)
    (indices : list Z) : result (option Z) :=
  match indices with
  | [] => Ok None
  | block_index :: indices' =>
      if block_index <? 0 then Ok None
      else
        let pool_parent := pool_parent_id block_index genesis_challenge in
        let farmer_parent := farmer_parent_id block_index genesis_challenge in
        first_addition ← py_getitem (additions self) 0;
        if bool_decide (pool_parent = parent_coin_info first_addition) then
          Ok (Some block_index)
        else if bool_decide (farmer_parent = parent_coin_info first_addition) then
          Ok (Some block_index)
        else height_farmed_loop self genesis_challenge indices'
  end.

Definition height_farmed (self : TransactionRecordOld) (genesis_challenge : bytes32)
  : result (option Z) :=
  if negb (confirmed self) then Ok None
  else if bool_decide (type self ∈ [FEE_REWARD; COINBASE_REWARD]) then
    height_farmed_loop self genesis_challenge
      (range_down (confirmed_at_height self) (confirmed_at_height self - 100))
  else Ok None.

(** The names of the two fee errors of [Err]. *)
Definition fee_error_names : list string :=
  ["INVALID_FEE_LOW_FEE"; "INVALID_FEE_TOO_CLOSE_TO_ZERO"].

Definition is_fee_error (x : SentTo) : bool :=
  match error x with
  | Some e => bool_decide (e ∈ fee_error_names)
  | None => false
  end.

Definition is_valid (self : TransactionRecordOld) : bool :=
  if Z.of_nat (length (sent_to self)) <? minimum_send_attempts then true
  else if existsb (fun x => status x =? SUCCESS) (sent_to self) then true
  else if existsb is_fee_error (sent_to self) then true
  else false.

Definition hint_dict (self : TransactionRecordOld) : gmap bytes32 bytes32 :=
  omap (fun memos : list bytes =>
          match memos with
          | first_memo :: _ =>
              if (length first_memo =? 32)%nat then Some first_memo else None
          | [] => None
          end)
       (memos self).

(** ** Vocabulary for the properties *)

(** The height is one at which the first addition is a pool or farmer
    reward. *)
Definition farmed_at (self : TransactionRecordOld) (genesis_challenge : bytes32)
    (h : Z) : Prop :=
  exists first_addition more,
    additions self = first_addition :: more /\
    (pool_parent_id h genesis_challenge = parent_coin_info first_addition \/
     farmer_parent_id h genesis_challenge = parent_coin_info first_addition).

End WithEnums.
End transaction_record.

(** * Properties of the CAT ring builder *)
Section SubtotalFacts.

Import cat_utils.

Lemma fold_left_add_shift (l : list Z) (a : Z) :
  fold_left Z.add l a = a + py_sum l.
Proof.
  unfold py_sum. revert a.
  induction l as [|x l IH]; intros a; simpl; [lia|].
  rewrite (IH (a + x)), (IH (0 + x)). lia.
Qed.

Lemma py_sum_cons (x : Z) (l : list Z) : py_sum (x :: l) = x + py_sum l.
Proof. unfold py_sum at 1. simpl. apply fold_left_add_shift. Qed.

Lemma subtotals_loop_from (deltas acc : list Z) (s : Z) :
  fold_left
    (fun '(subtotals, subtotal) delta => (subtotals ++ [subtotal], subtotal + delta))
    deltas (acc, s)
  = (acc ++ prefixes s deltas, s + py_sum deltas).
Proof.
  revert acc s.
  induction deltas as [|d r IH]; intros acc s; simpl.
  - rewrite app_nil_r. f_equal. unfold py_sum. simpl. lia.
  - rewrite IH, py_sum_cons, <- app_assoc. simpl. f_equal. lia.
Qed.

Lemma subtotals_loop_prefixes (deltas : list Z) :
  fst (subtotals_loop deltas) = prefixes 0 deltas.
Proof. unfold subtotals_loop. rewrite subtotals_loop_from. reflexivity. Qed.

Lemma length_prefixes (deltas : list Z) (s : Z) :
  length (prefixes s deltas) = length deltas.
Proof. revert s. induction deltas; intros; simpl; auto. Qed.

Lemma prefixes_lookup (deltas : list Z) (s : Z) (i : nat) :
  (i < length deltas)%nat ->
  prefixes s deltas !! i = Some (s + py_sum (take i deltas)).
Proof.
  revert s i.
  induction deltas as [|d r IH]; intros s i Hi; simpl in *; [lia|].
  destruct i as [|i]; simpl.
  - f_equal. unfold py_sum. simpl. lia.
  - rewrite IH by lia. rewrite py_sum_cons. f_equal. lia.
Qed.

Lemma fold_left_min_le (l : list Z) (a : Z) :
  fold_left Z.min l a <= a /\ Forall (fun y => fold_left Z.min l a <= y) l.
Proof.
  revert a.
  induction l as [|x l IH]; intros a; simpl.
  - split; [lia | constructor].
  - destruct (IH (Z.min a x)) as [H1 H2].
    split; [lia|]. constructor; [lia | exact H2].
Qed.

Lemma fold_left_min_elem (l : list Z) (a : Z) :
  fold_left Z.min l a ∈ a :: l.
Proof.
  revert a.
  induction l as [|x l IH]; intros a; simpl.
  - left.
  - specialize (IH (Z.min a x)).
    apply elem_of_cons in IH as [IH | IH].
    + rewrite IH. destruct (Z.min_spec a x) as [[_ ->] | [_ ->]].
      * left.
      * right. left.
    + right. right. exact IH.
Qed.

Lemma py_min_spec (l : list Z) :
  l <> [] ->
  exists m, py_min l = Ok m /\ m ∈ l /\ Forall (fun y => m <= y) l.
Proof.
  destruct l as [|x r]; [congruence|]. intros _.
  exists (fold_left Z.min r x). simpl.
  split; [reflexivity|]. split; [apply fold_left_min_elem|].
  destruct (fold_left_min_le r x). constructor; assumption.
Qed.

Lemma subtotals_for_deltas_ok (deltas : list Z) :
  deltas <> [] ->
  exists subtotals,
    subtotals_for_deltas deltas = Ok subtotals /\ length subtotals = length deltas.
Proof.
  intros Hne. unfold subtotals_for_deltas. rewrite subtotals_loop_prefixes.
  destruct (py_min_spec (prefixes 0 deltas)) as (m & -> & _).
  { destruct deltas; [congruence | discriminate]. }
  simpl. eexists. split; [reflexivity|].
  rewrite length_map. apply length_prefixes.
Qed.

(** C4: on a non-empty list of deltas, [subtotals_for_deltas] returns a
    list of the same length whose element [i] is the sum of the first [i]
    deltas plus one common offset, and whose smallest element is 0. *)
Theorem subtotals_for_deltas_spec (deltas : list Z) :
  deltas <> [] ->
  exists subtotals offset,
    subtotals_for_deltas deltas = Ok subtotals /\
    length subtotals = length deltas /\
    (forall i, (i < length deltas)%nat ->
               subtotals !! i = Some (py_sum (take i deltas) + offset)) /\
    0 ∈ subtotals /\
    Forall (fun s => 0 <= s) subtotals.
Proof.
  intros Hne.
  unfold subtotals_for_deltas. rewrite subtotals_loop_prefixes.
  destruct (py_min_spec (prefixes 0 deltas)) as (m & Hm & Hin & Hle).
  { destruct deltas; [congruence | discriminate]. }
  rewrite Hm. simpl.
  exists (map (fun s => s - m) (prefixes 0 deltas)), (- m).
  split; [reflexivity|].
  split; [rewrite length_map; apply length_prefixes|].
  split; [|split].
  - intros i Hi. rewrite list_lookup_fmap, prefixes_lookup by exact Hi.
    simpl. f_equal; lia.
  - apply list_elem_of_fmap. exists m. split; [lia | exact Hin].
  - apply Forall_fmap. eapply Forall_impl; [exact Hle|].
    intros y Hy. unfold compose. simpl in *. lia.
Qed.

(** The guarantee of C4 at the deltas [3; -5; 2]. *)
Lemma subtotals_for_deltas_spec_witness :
  let deltas : list Z := [3; -5; 2] in
  exists subtotals offset,
    subtotals_for_deltas deltas = Ok subtotals /\
    length subtotals = length deltas /\
    (forall i, (i < length deltas)%nat ->
               subtotals !! i = Some (py_sum (take i deltas) + offset)) /\
    0 ∈ subtotals /\
    Forall (fun s => 0 <= s) subtotals.
Proof. intros deltas. apply (subtotals_for_deltas_spec deltas). discriminate. Defined.

Example subtotals_for_deltas_run :
  subtotals_for_deltas [3; -5; 2] = Ok [2; 5; 0].
Proof. reflexivity. Qed.

End SubtotalFacts.

Section RingBuilderFacts.
Context `{L : Clvm}.

Import cat_utils.

Lemma for_each_inv {A B} (f : A -> result B) (l : list A) (ys : list B) :
  for_each f l = Ok ys -> Forall2 (fun x y => f x = Ok y) l ys.
Proof.
  revert ys.
  induction l as [|x l IH]; intros ys; simpl.
  - intros [= <-]. constructor.
  - destruct (f x) as [e|y] eqn:Hx; [discriminate|].
    destruct (for_each f l) as [e|ys'] eqn:Hl; [discriminate|].
    intros [= <-]. constructor; [exact Hx | apply IH; reflexivity].
Qed.

Lemma for_each_ok {A B} (f : A -> result B) (l : list A) :
  Forall (fun x => exists y, f x = Ok y) l ->
  exists ys, for_each f l = Ok ys.
Proof.
  induction 1 as [|x l [y Hy] _ [ys Hys]]; simpl.
  - eexists; reflexivity.
  - rewrite Hy, Hys. eexists; reflexivity.
Qed.

Lemma py_getitem_in_range {A} (l : list A) (i : Z) :
  0 <= i < Z.of_nat (length l) ->
  exists x, py_getitem l i = Ok x /\ l !! Z.to_nat i = Some x.
Proof.
  intros Hi. unfold py_getitem.
  destruct (Z.ltb_spec i 0); [lia|].
  destruct (Z.ltb_spec i 0); [lia|].
  destruct (Z.leb_spec (Z.of_nat (length l)) i); [lia|]. simpl.
  destruct (l !! Z.to_nat i) as [x|] eqn:Hx.
  - exists x. split; reflexivity.
  - apply lookup_ge_None in Hx. lia.
Qed.

(** Every round of the last loop succeeds and spends the coin of the
    member at its index. *)
Lemma coin_spend_at_ok (mod_code : Program) (cats : list SpendableCAT)
    (subtotals : list Z) (infos_for_next infos_for_me : list Program)
    (ids : list bytes32) (index : Z) :
  length subtotals = length cats ->
  length infos_for_next = length cats ->
  length infos_for_me = length cats ->
  length ids = length cats ->
  0 <= index < Z.of_nat (length cats) ->
  exists cs spend_info,
    coin_spend_at mod_code cats subtotals infos_for_next infos_for_me ids
      (Z.of_nat (length cats)) index = Ok cs /\
    cats !! Z.to_nat index = Some spend_info /\
    Base.coin cs = coin spend_info.
Proof.
  intros Hs Hn Hm Hi Hidx. unfold coin_spend_at.
  destruct (py_getitem_in_range cats index Hidx) as (si & -> & Hsi). simpl.
  assert (Hmod : forall j, 0 <= j `mod` Z.of_nat (length cats) < Z.of_nat (length cats))
    by (intros j; apply Z.mod_pos_bound; lia).
  destruct (py_getitem_in_range ids ((index - 1) `mod` Z.of_nat (length cats)))
    as (prev_id & -> & _); [rewrite Hi; apply Hmod|]. simpl.
  destruct (py_getitem_in_range infos_for_me index) as (my_info & -> & _);
    [rewrite Hm; exact Hidx|]. simpl.
  destruct (py_getitem_in_range infos_for_next ((index + 1) `mod` Z.of_nat (length cats)))
    as (next_info & -> & _); [rewrite Hn; apply Hmod|]. simpl.
  destruct (py_getitem_in_range subtotals index) as (subtotal & -> & _);
    [rewrite Hs; exact Hidx|]. simpl.
  eexists _, si. split; [reflexivity|]. split; [exact Hsi | reflexivity].
Qed.

Lemma ring_coins_in_order (cats : list SpendableCAT) (spends : list CoinSpend)
    (f : Z -> result CoinSpend) :
  for_each f (seqZ 0 (Z.of_nat (length cats))) = Ok spends ->
  (forall index, 0 <= index < Z.of_nat (length cats) ->
     exists cs spend_info, f index = Ok cs /\
       cats !! Z.to_nat index = Some spend_info /\ Base.coin cs = coin spend_info) ->
  map Base.coin spends = map coin cats.
Proof.
  intros Hfor Hf. apply for_each_inv in Hfor.
  assert (Hlen : length spends = length cats).
  { apply Forall2_length in Hfor. rewrite length_seqZ in Hfor. lia. }
  apply (list_eq_same_length _ _ (length cats)); rewrite ?length_map; auto.
  intros i x y Hi Hx Hy.
  rewrite list_lookup_fmap in Hx. rewrite list_lookup_fmap in Hy.
  destruct (spends !! i) as [cs|] eqn:Hcs; [|discriminate].
  destruct (cats !! i) as [si|] eqn:Hsi; [|discriminate].
  simpl in Hx, Hy. injection Hx as <-. injection Hy as <-.
  assert (Hseq : seqZ 0 (Z.of_nat (length cats)) !! i = Some (Z.of_nat i)).
  { rewrite lookup_seqZ. split; lia. }
  pose proof (Forall2_lookup_lr _ _ _ _ _ _ Hfor Hseq Hcs) as Hfi.
  destruct (Hf (Z.of_nat i)) as (cs' & si' & Hcs' & Hsi' & Hcoin); [lia|].
  rewrite Nat2Z.id in Hsi'.
  simpl in Hfi. congruence.
Qed.

End RingBuilderFacts.

Section RingBuilderTheorems.
Context `{L : Clvm}.

Import cat_utils.


(** C3, amended: for a non-empty list of members whose deltas the first
    loop computes, the builder raises the "amounts don't match"
    [ValueError] exactly when the deltas do not sum to zero; when they do
    it returns one spend per member, each spending the coin of the member
    at the same position. *)
Theorem ring_builder_conservation (mod_code : Program) (cats : list SpendableCAT)
    (deltas : list Z) :
  cats <> [] ->
  for_each delta_of cats = Ok deltas ->
  (unsigned_spend_bundle_for_spendable_cats mod_code cats
     = raise (ValueError "input and output amounts don't match")
   <-> py_sum deltas <> 0) /\
  (py_sum deltas = 0 ->
   exists bundle,
     unsigned_spend_bundle_for_spendable_cats mod_code cats = Ok bundle /\
     length (coin_spends bundle) = length cats /\
     map Base.coin (coin_spends bundle) = map coin cats).
Proof.
  intros Hne Hdeltas.
  assert (Hlen : length deltas = length cats).
  { apply for_each_inv, Forall2_length in Hdeltas. lia. }
  assert (Hbalanced : py_sum deltas = 0 ->
    exists bundle,
      unsigned_spend_bundle_for_spendable_cats mod_code cats = Ok bundle /\
      length (coin_spends bundle) = length cats /\
      map Base.coin (coin_spends bundle) = map coin cats).
  { intros Hsum. unfold unsigned_spend_bundle_for_spendable_cats.
    rewrite Hdeltas. simpl. rewrite Hsum. simpl.
    destruct (subtotals_for_deltas_ok deltas) as (subtotals & -> & Hsub).
    { intros ->. destruct cats; [congruence | discriminate]. }
    simpl.
    set (f := coin_spend_at mod_code cats subtotals _ _ _ _).
    assert (Hf : forall index, 0 <= index < Z.of_nat (length cats) ->
      exists cs spend_info, f index = Ok cs /\
        cats !! Z.to_nat index = Some spend_info /\ Base.coin cs = coin spend_info).
    { intros index Hidx. apply coin_spend_at_ok; rewrite ?length_map; auto; lia. }
    destruct (for_each_ok f (seqZ 0 (Z.of_nat (length cats)))) as [spends Hspends].
    { apply Forall_forall. intros index Hin. apply elem_of_seqZ in Hin.
      destruct (Hf index) as (cs & _ & Hcs & _); [lia | eauto]. }
    rewrite Hspends. simpl. eexists. split; [reflexivity|]. simpl.
    pose proof (ring_coins_in_order cats spends f Hspends Hf) as Hcoins.
    split; [|exact Hcoins].
    rewrite <- (length_map Base.coin), Hcoins. apply length_map. }
  split; [|exact Hbalanced].
  split.
  - intros Hraise Hsum. destruct (Hbalanced Hsum) as (bundle & Hok & _). congruence.
  - intros Hsum. unfold unsigned_spend_bundle_for_spendable_cats.
    rewrite Hdeltas. simpl.
    destruct (Z.eqb_spec (py_sum deltas) 0); [contradiction | reflexivity].
Qed.

(** C10, amended: on the empty member list the conservation check passes
    and the builder then raises the [ValueError] of [min] over the empty
    list of subtotals; no bundle is returned. *)
Theorem ring_builder_empty_raises (mod_code : Program) :
  for_each delta_of [] = Ok [] /\
  py_sum [] = 0 /\
  subtotals_for_deltas [] = raise (ValueError MIN_EMPTY) /\
  unsigned_spend_bundle_for_spendable_cats mod_code []
    = raise (ValueError MIN_EMPTY).
Proof.
  repeat split.
Qed.

End RingBuilderTheorems.

(** * Two facts about [filter] *)
Section FilterFacts.
Context {A : Type} (P : A -> Prop) `{!forall x, Decision (P x)}.

Lemma filter_none (l : list A) :
  Forall (fun x => ~ P x) l -> filter P l = [].
Proof.
  induction 1 as [|x l Hx _ IH]; [reflexivity|].
  rewrite filter_cons_False by exact Hx. exact IH.
Qed.

Lemma filter_all (l : list A) :
  Forall P l -> filter P l = l.
Proof.
  induction 1 as [|x l Hx _ IH]; [reflexivity|].
  rewrite filter_cons_True by exact Hx. f_equal. exact IH.
Qed.

End FilterFacts.

(** * Properties of [SingletonWallet.update_state] *)
Section UpdateStateFacts.
Context `{L : Clvm}.

Import singleton_lifecycle.

Lemma additions_skip_even (db : gmap bytes32 Program) (cs : CoinSpend)
    (additions : list Coin) (self : SingletonWallet) (n : Z) :
  update_state_additions db cs additions self n
  = update_state_additions db cs (filter odd_amount additions) self n.
Proof.
  revert self n.
  induction additions as [|c rest IH]; intros self n; [reflexivity|].
  destruct (decide (odd_amount c)) as [Hodd | Heven].
  - rewrite filter_cons_True by exact Hodd. simpl.
    unfold odd_amount in Hodd. rewrite Hodd. simpl.
    destruct (puzzle_for_hash db _); [|reflexivity].
    destruct (inner_puzzle_for_puzzle self _); [reflexivity|].
    apply IH.
  - rewrite filter_cons_False by exact Heven. simpl.
    unfold odd_amount in Heven.
    destruct (Z.eqb_spec (Z.land (amount c) 1) 1); [contradiction|].
    apply IH.
Qed.

Lemma removals_skip_others (db : gmap bytes32 Program) (name : bytes32)
    (removals : list CoinSpend) (self : SingletonWallet) (n : Z) :
  update_state_removals db name removals self n
  = update_state_removals db name (filter (spends_coin name) removals) self n.
Proof.
  revert self n.
  induction removals as [|s rest IH]; intros self n; [reflexivity|].
  destruct (decide (spends_coin name s)) as [Hs | Hs].
  - rewrite filter_cons_True by exact Hs. simpl.
    rewrite !bool_decide_true by exact Hs.
    destruct (compute_additions s); [reflexivity|].
    destruct (update_state_additions db s _ self n) as [self' [e|n']]; [reflexivity|].
    apply IH.
  - rewrite filter_cons_False by exact Hs. simpl.
    rewrite bool_decide_false by exact Hs. apply IH.
Qed.


(** One spend with one odd child, its puzzle known and well-formed:
    the wallet moves to the child and one change is counted. *)
Lemma additions_one_odd (db : gmap bytes32 Program) (s : CoinSpend) (child : Coin)
    (additions : list Coin) (self : SingletonWallet) (p inner : Program) (n : Z) :
  filter odd_amount additions = [child] ->
  puzzle_for_hash db (puzzle_hash (coin s)) = Some p ->
  inner_puzzle_for_puzzle self p = Ok inner ->
  update_state_additions db s additions self n = (advanced self inner child, Ok (n + 1)).
Proof.
  intros Hodd Hp Hinner.
  rewrite additions_skip_even, Hodd. simpl.
  assert (Hc : odd_amount child).
  { assert (Hin : child ∈ filter odd_amount additions) by (rewrite Hodd; left).
    apply list_elem_of_filter in Hin. tauto. }
  unfold odd_amount in Hc. rewrite Hc. simpl.
  rewrite Hp, Hinner. reflexivity.
Qed.

End UpdateStateFacts.

Section UpdateStateTheorems.
Context `{L : Clvm}.

Import singleton_lifecycle.




(** C7, amended: when exactly one spend of the set consumes the current
    coin, it creates exactly one odd-amount coin, no spend of the set
    consumes that coin, and the spent coin's puzzle is in the puzzle
    database and is a well-formed singleton puzzle, the first
    [update_state] returns 1 and moves the wallet to the odd child, and a
    second one with the same set returns 0 and changes nothing. *)
Theorem update_state_twice (self : SingletonWallet) (db : gmap bytes32 Program)
    (removals : list CoinSpend) (s : CoinSpend) (additions : list Coin) (child : Coin)
    (p inner : Program) :
  filter (spends_coin (coin_name (current_state self))) removals = [s] ->
  compute_additions s = Ok additions ->
  filter odd_amount additions = [child] ->
  Forall (fun x => ~ spends_coin (coin_name child) x) removals ->
  puzzle_for_hash db (puzzle_hash (coin s)) = Some p ->
  inner_puzzle_for_puzzle self p = Ok inner ->
  update_state self db removals = (advanced self inner child, Ok 1) /\
  update_state (advanced self inner child) db removals
    = (advanced self inner child, Ok 0).
Proof.
  intros Hs Hadd Hodd Hunspent Hp Hinner. split.
  - unfold update_state. rewrite removals_skip_others, Hs. simpl.
    assert (Hspends : spends_coin (coin_name (current_state self)) s).
    { assert (Hin : s ∈ filter (spends_coin (coin_name (current_state self))) removals)
        by (rewrite Hs; left).
      apply list_elem_of_filter in Hin. tauto. }
    rewrite bool_decide_true by exact Hspends.
    rewrite Hadd.
    rewrite (additions_one_odd db s child additions self p inner 0 Hodd Hp Hinner).
    reflexivity.
  - unfold update_state. rewrite removals_skip_others. simpl.
    rewrite (filter_none _ _ Hunspent). reflexivity.
Qed.

(** [lineage_proof_for_coin_spend] on a puzzle curried with four
    arguments: the spent coin's parent, the hash of the fourth argument
    and the spent coin's own amount. *)
Lemma lineage_proof_for_coin_spend_four_args (s : CoinSpend) (template args : Program)
    (a b c inner : Program) :
  puzzle_hash (coin s) <> LAUNCHER_PUZZLE_HASH ->
  uncurry (puzzle_reveal s) = (template, args) ->
  as_iter args = Ok [a; b; c; inner] ->
  lineage_proof_for_coin_spend s
  = Ok (Program_to
          (CList [CBytes (parent_coin_info (coin s));
                  CBytes (get_tree_hash inner);
                  CInt (amount (coin s))])).
Proof.
  intros Hl Hu Hargs. unfold lineage_proof_for_coin_spend.
  rewrite bool_decide_false by exact Hl.
  rewrite Hu, Hargs. reflexivity.
Qed.

(** The inner puzzle is found only in a puzzle curried with two arguments. *)
Lemma inner_puzzle_two_args (self : SingletonWallet) (p inner : Program) :
  inner_puzzle_for_puzzle self p = Ok inner ->
  exists first, as_iter (snd (uncurry p)) = Ok [first; inner].
Proof.
  unfold inner_puzzle_for_puzzle.
  destruct (py_assert _); [discriminate|]. simpl.
  destruct (uncurry p) as [template args]. simpl.
  destruct (py_assert _); [discriminate|]. simpl.
  destruct (as_iter args) as [e|items]; [discriminate|]. simpl.
  destruct items as [|x [|y [|z more]]]; simpl; try discriminate.
  intros [= <-]. exists x. reflexivity.
Qed.

(** C9: for a spend of the current coin that is not a launcher spend,
    whose puzzle reveal is the puzzle the database holds for the coin and
    which creates one odd child, [update_state] stores the triple of the
    current coin's parent, the inner puzzle hash and the amount of the
    CHILD, while [lineage_proof_for_coin_spend] on the same spend raises
    [ValueError]: it unpacks four curried arguments where
    [update_state] found two. *)
Theorem lineage_proofs_differ (self : SingletonWallet) (db : gmap bytes32 Program)
    (s : CoinSpend) (additions : list Coin) (child : Coin) (inner : Program) :
  spends_coin (coin_name (current_state self)) s ->
  puzzle_hash (coin s) <> LAUNCHER_PUZZLE_HASH ->
  compute_additions s = Ok additions ->
  filter odd_amount additions = [child] ->
  puzzle_for_hash db (puzzle_hash (coin s)) = Some (puzzle_reveal s) ->
  inner_puzzle_for_puzzle self (puzzle_reveal s) = Ok inner ->
  (exists self',
     update_state self db [s] = (self', Ok 1) /\
     lineage_proof self'
     = Program_to
         (CList [CBytes (parent_coin_info (current_state self));
                 CBytes (get_tree_hash inner);
                 CInt (amount child)])) /\
  lineage_proof_for_coin_spend s = raise (ValueError "not enough values to unpack").
Proof.
  intros Hspends Hl Hadd Hodd Hp Hinner. split.
  - exists (advanced self inner child). split; [|reflexivity].
    unfold update_state. simpl.
    rewrite bool_decide_true by exact Hspends.
    rewrite Hadd.
    rewrite (additions_one_odd db s child additions self _ inner 0 Hodd Hp Hinner).
    reflexivity.
  - destruct (inner_puzzle_two_args self _ inner Hinner) as [first Hargs].
    unfold lineage_proof_for_coin_spend.
    rewrite bool_decide_false by exact Hl.
    destruct (uncurry (puzzle_reveal s)) as [template args].
    simpl in Hargs. rewrite Hargs. reflexivity.
Qed.

End UpdateStateTheorems.

(** * Properties of [Solver.solve] *)
Section SolverTheorems.
Context `{L : Clvm} {Kwargs : Type}.

Import singleton_lifecycle.

Lemma solve_unfold (depth : nat) (self : Solver Kwargs) (db : gmap bytes32 Program)
    (puzzle : Program) (kwargs : Kwargs) :
  solve Kwargs (S depth) self db puzzle kwargs
  = solve_body Kwargs (solve Kwargs depth self) self db puzzle kwargs.
Proof. reflexivity. Qed.

(** The builder registered under the puzzle's own hash is looked up with
    no arguments. *)
Lemma solve_lookup_key_own (self : Solver Kwargs) (puzzle : Program) (f : Solver_F Kwargs) :
  solvers_by_puzzle_hash Kwargs self !! get_tree_hash puzzle = Some f ->
  solve_lookup_key Kwargs self puzzle = Ok (get_tree_hash puzzle, []).
Proof. intros H. unfold solve_lookup_key. rewrite H. reflexivity. Qed.

(** Otherwise the template's hash and the curried arguments are used. *)
Lemma solve_lookup_key_template (self : Solver Kwargs) (puzzle template args : Program)
    (puzzle_args : list Program) :
  solvers_by_puzzle_hash Kwargs self !! get_tree_hash puzzle = None ->
  uncurry puzzle = (template, args) ->
  as_iter args = Ok puzzle_args ->
  solve_lookup_key Kwargs self puzzle = Ok (get_tree_hash template, puzzle_args).
Proof.
  intros Hown Hu Hargs. unfold solve_lookup_key.
  rewrite Hown, Hu, Hargs. reflexivity.
Qed.

(** C8: [solve] first uses the builder registered under the puzzle's own
    tree hash (with an empty argument list); when there is none it
    uncurries the puzzle and uses the builder registered under the
    template's tree hash, handing it the curried arguments; when neither
    hash has a builder it raises [ValueError "can't solve"].  In every
    case the outcome is an exception raised before any builder runs, or
    the outcome of one application of one registered builder. *)
Theorem solve_dispatch (depth : nat) (self : Solver Kwargs) (db : gmap bytes32 Program)
    (puzzle template args : Program) (kwargs : Kwargs) :
  uncurry puzzle = (template, args) ->
  let registry := solvers_by_puzzle_hash Kwargs self in
  let recur := solve Kwargs depth self in
  let outcome := solve Kwargs (S depth) self db puzzle kwargs in
  (forall f, registry !! get_tree_hash puzzle = Some f ->
     outcome = f recur db [] kwargs) /\
  (forall f puzzle_args,
     registry !! get_tree_hash puzzle = None ->
     as_iter args = Ok puzzle_args ->
     registry !! get_tree_hash template = Some f ->
     outcome = f recur db puzzle_args kwargs) /\
  (forall puzzle_args,
     registry !! get_tree_hash puzzle = None ->
     as_iter args = Ok puzzle_args ->
     registry !! get_tree_hash template = None ->
     outcome = raise (ValueError "can't solve")) /\
  ((exists e, outcome = raise e /\
      (e = ValueError "can't solve" \/ as_iter args = raise e)) \/
   (exists h f puzzle_args,
      registry !! h = Some f /\ outcome = f recur db puzzle_args kwargs)).
Proof.
  intros Hu. cbv zeta. rewrite solve_unfold. unfold solve_body.
  split; [|split; [|split]].
  - intros f Hown. rewrite (solve_lookup_key_own self puzzle f Hown). simpl.
    rewrite Hown. reflexivity.
  - intros f puzzle_args Hown Hargs Htemplate.
    rewrite (solve_lookup_key_template self puzzle template args puzzle_args Hown Hu Hargs).
    simpl. rewrite Htemplate. reflexivity.
  - intros puzzle_args Hown Hargs Htemplate.
    rewrite (solve_lookup_key_template self puzzle template args puzzle_args Hown Hu Hargs).
    simpl. rewrite Htemplate. reflexivity.
  - destruct (solvers_by_puzzle_hash Kwargs self !! get_tree_hash puzzle) as [f|] eqn:Hown.
    + right. exists (get_tree_hash puzzle), f, [].
      split; [exact Hown|].
      rewrite (solve_lookup_key_own self puzzle f Hown). simpl.
      rewrite Hown. reflexivity.
    + destruct (as_iter args) as [e|puzzle_args] eqn:Hargs.
      * left. exists e. split; [|right; reflexivity].
        unfold solve_lookup_key. rewrite Hown, Hu, Hargs. reflexivity.
      * rewrite (solve_lookup_key_template self puzzle template args puzzle_args
                   Hown Hu Hargs). simpl.
        destruct (solvers_by_puzzle_hash Kwargs self !! get_tree_hash template)
          as [f|] eqn:Htemplate.
        -- right. exists (get_tree_hash template), f, puzzle_args.
           split; [exact Htemplate | reflexivity].
        -- left. exists (ValueError "can't solve"). split; [reflexivity | left; reflexivity].
Qed.

(** With no call stack left [solve] raises [RecursionError]. *)
Lemma solve_no_stack (self : Solver Kwargs) (db : gmap bytes32 Program)
    (puzzle : Program) (kwargs : Kwargs) :
  solve Kwargs 0 self db puzzle kwargs = raise RecursionError.
Proof. reflexivity. Qed.

End SolverTheorems.

(** * Properties of the ledger log store *)
Section LedgerLogFacts.
Context `{L : Clvm}.

Import ledger_log.

Lemma fold_left_max_ge (l : list N) (a : N) :
  (a <= fold_left N.max l a)%N /\ Forall (fun y => (y <= fold_left N.max l a)%N) l.
Proof.
  revert a.
  induction l as [|x l IH]; intros a; simpl.
  - split; [lia | constructor].
  - destruct (IH (N.max a x)) as [H1 H2].
    split; [lia|]. constructor; [lia | exact H2].
Qed.

Lemma highest_bound (hs : list N) (p : N) :
  highest hs = Some p -> Forall (fun y => (y <= p)%N) hs.
Proof.
  destruct hs as [|x r]; [discriminate|]. simpl. intros [= <-].
  destruct (fold_left_max_ge r x). constructor; assumption.
Qed.

Lemma highest_snoc (hs : list N) (h : N) :
  highest (hs ++ [h])
  = Some (match highest hs with Some p => N.max p h | None => h end).
Proof.
  destruct hs as [|x r]; [reflexivity|].
  simpl. rewrite fold_left_app. reflexivity.
Qed.

Lemma heights_of_snoc (owner : Z) (l : list LedgerLogEntry) (e : LedgerLogEntry) :
  heights_of owner (l ++ [e])
  = heights_of owner l ++ (if decide (owner_id e = owner) then [height e] else []).
Proof.
  unfold heights_of. rewrite filter_app, map_app. f_equal.
  rewrite filter_cons, filter_nil. destruct (decide (owner_id e = owner)); reflexivity.
Qed.

(** What [rollback] keeps of another owner's entries: everything. *)
Lemma rollback_other_owner (target : N) (owner other : Z) (l : list LedgerLogEntry) :
  other <> owner ->
  filter (fun e => owner_id e = other)
    (filter (fun e => ~ (owner_id e = owner /\ (target < height e)%N)) l)
  = filter (fun e => owner_id e = other) l.
Proof.
  intros Hne.
  induction l as [|e l IH]; [reflexivity|].
  rewrite !filter_cons.
  destruct (decide (owner_id e = other)) as [He | He].
  - rewrite decide_True by (intros [H _]; congruence).
    rewrite filter_cons, decide_True by exact He. f_equal. exact IH.
  - destruct (decide (~ (owner_id e = owner /\ (target < height e)%N))); [|exact IH].
    rewrite filter_cons, decide_False by exact He. exact IH.
Qed.

Lemma rollback_heights_bounded (target : N) (owner : Z) (l : list LedgerLogEntry) :
  Forall (fun y => (y <= target)%N)
    (heights_of owner
       (filter (fun e => ~ (owner_id e = owner /\ (target < height e)%N)) l)).
Proof.
  unfold heights_of. apply Forall_fmap, Forall_forall.
  intros e He. apply list_elem_of_filter in He as [Ho He].
  apply list_elem_of_filter in He as [Hkeep _].
  unfold compose. destruct (N.le_gt_cases (height e) target) as [Hle | Hgt]; [exact Hle|].
  exfalso. apply Hkeep. split; [exact Ho | exact Hgt].
Qed.

(** The empty log is consistent, and the three operations keep the
    cached peaks consistent. *)
Lemma empty_log_consistent : peak_consistent empty_log.
Proof. intros owner. apply lookup_empty. Qed.

Lemma rollback_consistent (target : N) (owner : Z) (st : LedgerLog) :
  peak_consistent st -> peak_consistent (rollback target owner st).
Proof.
  intros Hc other. unfold rollback. simpl.
  destruct (decide (other = owner)) as [-> | Hne].
  - destruct (highest _) as [p|] eqn:Hp.
    + rewrite lookup_insert_eq. reflexivity.
    + rewrite lookup_delete_eq. reflexivity.
  - assert (Hsame : heights_of other
        (filter (fun e => ~ (owner_id e = owner /\ (target < height e)%N)) (entries st))
      = heights_of other (entries st)).
    { unfold heights_of. rewrite rollback_other_owner by exact Hne. reflexivity. }
    rewrite Hsame.
    destruct (highest (heights_of owner _)) as [p|].
    + rewrite lookup_insert_ne by congruence. apply Hc.
    + rewrite lookup_delete_ne by congruence. apply Hc.
Qed.

Lemma append_consistent (owner : Z) (s : CoinSpend) (h : N) (st : LedgerLog) :
  peak_consistent st -> peak_consistent (fst (append owner s h st)).
Proof.
  intros Hc. unfold append.
  destruct (has_triple _ _ _ _); [exact Hc|].
  destruct (has_key _ _ _); [exact Hc|].
  pose proof (Hc owner) as Howner.
  destruct (peak_height st !! owner) as [p|] eqn:Hp.
  - destruct (h <? p)%N; [exact Hc|]. simpl.
    intros other. simpl. rewrite heights_of_snoc. simpl.
    destruct (decide (owner = other)) as [<- | Hne].
    + rewrite lookup_insert_eq, highest_snoc, <- Howner. reflexivity.
    + rewrite lookup_insert_ne by exact Hne. rewrite app_nil_r. apply Hc.
  - simpl. intros other. simpl. rewrite heights_of_snoc. simpl.
    destruct (decide (owner = other)) as [<- | Hne].
    + rewrite lookup_insert_eq, highest_snoc, <- Howner. reflexivity.
    + rewrite lookup_insert_ne by exact Hne. rewrite app_nil_r. apply Hc.
Qed.

Lemma delete_owner_consistent (owner : Z) (st : LedgerLog) :
  peak_consistent st -> peak_consistent (delete_owner owner st).
Proof.
  intros Hc other. unfold delete_owner. simpl.
  destruct (decide (other = owner)) as [-> | Hne].
  - rewrite lookup_delete_eq. unfold heights_of.
    rewrite (filter_none (fun e => owner_id e = owner)); [reflexivity|].
    apply Forall_forall. intros e He. apply list_elem_of_filter in He. tauto.
  - rewrite lookup_delete_ne by congruence. rewrite Hc. f_equal.
    unfold heights_of. f_equal.
    induction (entries st) as [|e l IH]; [reflexivity|].
    rewrite !filter_cons.
    destruct (decide (owner_id e = other)) as [He | He].
    + rewrite decide_True by congruence.
      rewrite filter_cons, decide_True by exact He. f_equal. exact IH.
    + destruct (decide (owner_id e <> owner)); [|exact IH].
      rewrite filter_cons, decide_False by exact He. exact IH.
Qed.

End LedgerLogFacts.

Section LedgerLogTheorems.
Context `{L : Clvm}.

Import ledger_log.

(** After a rollback to [target], an entry of the owner for a coin the
    owner has no entry of, at any height from [target] on, is accepted. *)
Lemma append_after_rollback (target : N) (owner : Z) (st : LedgerLog)
    (s : CoinSpend) (h : N) :
  (target <= h)%N ->
  ~ Exists (fun e => owner_id e = owner /\ coin_id e = coin_name (coin s))
      (entries (rollback target owner st)) ->
  exists st',
    append owner s h (rollback target owner st) = (st', inr tt) /\
    entries st' = entries (rollback target owner st) ++ [mkEntry owner h s].
Proof.
  intros Hh Hfresh. unfold append.
  assert (Hno_triple :
    has_triple owner (coin_name (coin s)) h (entries (rollback target owner st)) = false).
  { unfold has_triple. apply bool_decide_eq_false. intros Hex. apply Hfresh.
    eapply Exists_impl; [exact Hex|]. simpl. tauto. }
  assert (Hno_key :
    has_key owner (coin_name (coin s)) (entries (rollback target owner st)) = false).
  { unfold has_key. apply bool_decide_eq_false. exact Hfresh. }
  rewrite Hno_triple, Hno_key.
  destruct (peak_height (rollback target owner st) !! owner) as [p|] eqn:Hp.
  - assert (Hle : (p <= target)%N).
    { unfold rollback in Hp. simpl in Hp.
      pose proof (rollback_heights_bounded target owner (entries st)) as Hb.
      destruct (highest _) as [q|] eqn:Hq.
      - rewrite lookup_insert_eq in Hp. injection Hp as <-.
        destruct (heights_of owner _) as [|x r] eqn:Hhs; [discriminate|].
        simpl in Hq. injection Hq as <-.
        clear Hhs. revert x Hb. induction r as [|y r IH]; intros x Hb; simpl.
        + apply Forall_cons in Hb. tauto.
        + apply IH. apply Forall_cons in Hb as [Hx Hb].
          apply Forall_cons in Hb as [Hy Hb].
          constructor; [lia | exact Hb].
      - rewrite lookup_delete_eq in Hp. discriminate. }
    destruct (N.ltb_spec h p); [lia|].
    eexists. split; reflexivity.
  - eexists. split; reflexivity.
Qed.

(** C1: [rollback target owner] keeps exactly the entries that are another
    owner's or at a height up to [target], in their order; after it, an
    entry for a coin new to the owner at a height from [target] on is
    accepted; and on one owner's entries at heights 100, 100, 100, 101,
    105, 105, rollback to 100 leaves the three entries at height 100,
    rollback to 99 leaves none, and after the rollback to 100 a new coin
    is accepted at height 105. *)
Theorem rollback_spec (target : N) (owner : Z) (st : LedgerLog) :
  (forall e,
     e ∈ entries (rollback target owner st) <->
     e ∈ entries st /\ (owner_id e = owner -> (height e <= target)%N)) /\
  entries (rollback target owner st) `sublist_of` entries st /\
  (forall other, other <> owner ->
     entries_for other (rollback target owner st) = entries_for other st) /\
  (forall s h,
     (target <= h)%N ->
     ~ Exists (fun e => owner_id e = owner /\ coin_id e = coin_name (coin s))
         (entries (rollback target owner st)) ->
     exists st',
       append owner s h (rollback target owner st) = (st', inr tt) /\
       entries st' = entries (rollback target owner st) ++ [mkEntry owner h s]) /\
  (forall s1 s2 s3 s4 s5 s6 s7 peaks,
     let log :=
       mkLog [mkEntry owner 100 s1; mkEntry owner 100 s2; mkEntry owner 100 s3;
              mkEntry owner 101 s4; mkEntry owner 105 s5; mkEntry owner 105 s6] peaks in
     entries_for owner (rollback 100 owner log) = [(100%N, s1); (100%N, s2); (100%N, s3)] /\
     entries_for owner (rollback 99 owner log) = [] /\
     (Forall (fun s => coin_name (coin s) <> coin_name (coin s7)) [s1; s2; s3] ->
      entries_for owner (fst (append owner s7 105 (rollback 100 owner log)))
      = [(100%N, s1); (100%N, s2); (100%N, s3); (105%N, s7)])).
Proof.
  split; [|split; [|split; [|split]]].
  - intros e. unfold rollback. simpl. rewrite list_elem_of_filter.
    split.
    + intros [Hkeep Hin]. split; [exact Hin|]. intros Ho.
      destruct (N.le_gt_cases (height e) target) as [Hle | Hgt]; [exact Hle|].
      exfalso. apply Hkeep. split; assumption.
    + intros [Hin Hle]. split; [|exact Hin]. intros [Ho Hgt].
      specialize (Hle Ho). lia.
  - unfold rollback. simpl. apply sublist_filter.
  - intros other Hne. unfold entries_for, rollback. simpl.
    rewrite rollback_other_owner by exact Hne. reflexivity.
  - intros s h. apply append_after_rollback.
  - intros s1 s2 s3 s4 s5 s6 s7 peaks log.
    assert (Hkeep100 : entries (rollback 100 owner log)
              = [mkEntry owner 100 s1; mkEntry owner 100 s2; mkEntry owner 100 s3]).
    { unfold rollback, log. simpl.
      repeat (rewrite filter_cons_True by (simpl; intros [_ Hlt]; lia)).
      repeat (rewrite filter_cons_False by (simpl; intros Hn; apply Hn; split; [reflexivity | lia])).
      reflexivity. }
    assert (Hkeep99 : entries (rollback 99 owner log) = []).
    { unfold rollback, log. simpl.
      repeat (rewrite filter_cons_False by (simpl; intros Hn; apply Hn; split; [reflexivity | lia])).
      reflexivity. }
    split; [|split].
    + unfold entries_for. rewrite Hkeep100.
      rewrite filter_all by (repeat constructor). reflexivity.
    + unfold entries_for. rewrite Hkeep99. reflexivity.
    + intros Hnew.
      destruct (append_after_rollback 100 owner log s7 105) as (st' & -> & Hst'); [lia | |].
      { rewrite Hkeep100. intros Hex.
        apply Exists_exists in Hex as (e & He & _ & Hid).
        unfold coin_id in Hid.
        apply Forall_cons in Hnew as [H1 Hnew].
        apply Forall_cons in Hnew as [H2 Hnew].
        apply Forall_cons in Hnew as [H3 _].
        apply elem_of_cons in He as [-> | He]; [exact (H1 Hid)|].
        apply elem_of_cons in He as [-> | He]; [exact (H2 Hid)|].
        apply elem_of_cons in He as [-> | He]; [exact (H3 Hid)|].
        apply elem_of_nil in He. exact He. }
      simpl. unfold entries_for. rewrite Hst', Hkeep100.
      rewrite filter_all by (repeat constructor). reflexivity.
Qed.

End LedgerLogTheorems.

Section AppendTheorems.
Context `{L : Clvm}.

Import ledger_log.

(** A successful [append] leaves the appended triple recorded. *)
Lemma append_records_triple (owner : Z) (s : CoinSpend) (h : N) (st st' : LedgerLog) :
  append owner s h st = (st', inr tt) ->
  has_triple owner (coin_name (coin s)) h (entries st') = true.
Proof.
  unfold append.
  destruct (has_triple owner (coin_name (coin s)) h (entries st)) eqn:Htriple.
  { intros [= <-]. exact Htriple. }
  destruct (has_key _ _ _); [discriminate|].
  assert (Hnew : forall l,
    has_triple owner (coin_name (coin s)) h (l ++ [mkEntry owner h s]) = true).
  { intros l. unfold has_triple. apply bool_decide_eq_true.
    apply Exists_app. right. constructor. simpl. auto. }
  destruct (peak_height st !! owner) as [p|].
  - destruct (h <? p)%N; [discriminate|]. intros [= <-]. simpl. apply Hnew.
  - intros [= <-]. simpl. apply Hnew.
Qed.

(** C2, amended: [append] is a no-op that succeeds when the identical
    triple is recorded, so a repeated append changes nothing; it fails
    with [HeightConflictError] when the owner and coin are recorded at
    another height; it fails with [NonMonotonicHeightError] when the owner
    and coin are not recorded at all and the height is below the owner's
    highest recorded height; and a failing append leaves the store as it
    was. *)
Theorem append_spec (owner : Z) (s : CoinSpend) (h : N) (st : LedgerLog) :
  let recorded_triple :=
    Exists (fun e => owner_id e = owner /\ coin_id e = coin_name (coin s) /\ height e = h)
      (entries st) in
  let recorded_key :=
    Exists (fun e => owner_id e = owner /\ coin_id e = coin_name (coin s)) (entries st) in
  (recorded_triple -> append owner s h st = (st, inr tt)) /\
  (forall st', append owner s h st = (st', inr tt) ->
               append owner s h st' = (st', inr tt)) /\
  (~ recorded_triple -> recorded_key ->
   append owner s h st = (st, inl HeightConflictError)) /\
  (peak_consistent st ->
   forall p, ~ recorded_key ->
             highest (heights_of owner (entries st)) = Some p -> (h < p)%N ->
             append owner s h st = (st, inl NonMonotonicHeightError)) /\
  (forall st' e, append owner s h st = (st', inl e) -> st' = st).
Proof.
  intros recorded_triple recorded_key.
  assert (Hidem : forall st0,
    has_triple owner (coin_name (coin s)) h (entries st0) = true ->
    append owner s h st0 = (st0, inr tt)).
  { intros st0 H. unfold append. rewrite H. reflexivity. }
  split; [|split; [|split; [|split]]].
  - intros Hrec. apply Hidem. unfold has_triple. apply bool_decide_eq_true. exact Hrec.
  - intros st' Hok. apply Hidem. eapply append_records_triple. exact Hok.
  - intros Hno Hkey. unfold append.
    unfold has_triple. rewrite bool_decide_false by exact Hno.
    unfold has_key. rewrite bool_decide_true by exact Hkey. reflexivity.
  - intros Hc p Hno Hp Hlt. unfold append.
    assert (Hno3 : ~ recorded_triple).
    { intros Hex. apply Hno. eapply Exists_impl; [exact Hex|]. simpl. tauto. }
    unfold has_triple. rewrite bool_decide_false by exact Hno3.
    unfold has_key. rewrite bool_decide_false by exact Hno.
    rewrite (Hc owner), Hp.
    destruct (N.ltb_spec h p); [reflexivity | lia].
  - intros st' e. unfold append.
    destruct (has_triple _ _ _ _); [discriminate|].
    destruct (has_key _ _ _); [intros [= <- _]; reflexivity|].
    destruct (peak_height st !! owner) as [p|].
    + destruct (h <? p)%N; [intros [= <- _]; reflexivity | discriminate].
    + discriminate.
Qed.

End AppendTheorems.

(** * The properties on concrete inputs *)
Section Examples.

Import Scenario.
Import singleton_lifecycle.

(** The guarantee of C8 on the singleton puzzle: no builder is registered
    under its own hash, so the singleton builder registered under the
    template's hash gets the two curried arguments. *)
Lemma solve_dispatch_witness :
  solve _ 2 solver puzzle_db full_puzzle kwargs
  = solve_singleton (solve _ 1 solver) puzzle_db
      [Pair (Atom (Reference.get_tree_hash Reference.SINGLETON_MOD))
            (Pair (Atom LAUNCHER_ID) (Atom Reference.LAUNCHER_PUZZLE_HASH));
       ANYONE_CAN_SPEND_PUZZLE]
      kwargs.
Proof.
  assert (Hu : uncurry full_puzzle
    = (Reference.SINGLETON_MOD,
       Reference.list_to_program
         [Pair (Atom (Reference.get_tree_hash Reference.SINGLETON_MOD))
               (Pair (Atom LAUNCHER_ID) (Atom Reference.LAUNCHER_PUZZLE_HASH));
          ANYONE_CAN_SPEND_PUZZLE])) by (vm_compute; reflexivity).
  destruct (solve_dispatch 1 solver puzzle_db full_puzzle _ _ kwargs Hu)
    as (_ & Htemplate & _).
  apply Htemplate; vm_compute; reflexivity.
Defined.

Example solve_unregistered :
  solve _ 2 solver puzzle_db (Atom [Byte.x07]) kwargs = raise (ValueError "can't solve").
Proof. reflexivity. Qed.





(** The guarantee of C7 on the spend to one odd child. *)
Lemma update_state_twice_witness :
  update_state wallet puzzle_db [continuing_spend]
  = (advanced wallet ANYONE_CAN_SPEND_PUZZLE child, Ok 1) /\
  update_state (advanced wallet ANYONE_CAN_SPEND_PUZZLE child) puzzle_db [continuing_spend]
  = (advanced wallet ANYONE_CAN_SPEND_PUZZLE child, Ok 0).
Proof.
  apply (update_state_twice wallet puzzle_db [continuing_spend] continuing_spend
           [child; mkCoin (coin_name current_coin) [Byte.xcc] 2] child
           full_puzzle ANYONE_CAN_SPEND_PUZZLE).
  - vm_compute. reflexivity.
  - reflexivity.
  - vm_compute. reflexivity.
  - compute_done.
  - reflexivity.
  - reflexivity.
Defined.

(** C7 as stated fails: with the spent coin's puzzle missing from the
    puzzle database the first call raises [AssertionError], although one
    spend consumes the current coin, it creates one odd-amount coin and
    that coin is not consumed in the set. *)
Lemma update_state_unknown_puzzle :
  filter (spends_coin (coin_name (current_state wallet))) [continuing_spend]
    = [continuing_spend] /\
  (filter odd_amount <$> compute_additions continuing_spend) = Ok [child] /\
  filter (spends_coin (coin_name child)) [continuing_spend] = [] /\
  update_state wallet ∅ [continuing_spend] = (wallet, raise AssertionError).
Proof. repeat split; vm_compute; reflexivity. Qed.

(** The divergence of C9 on the spend to one odd child: [update_state]
    stores the child's amount 1, the spent coin's amount is 3, and
    [lineage_proof_for_coin_spend] raises. *)
Lemma lineage_proofs_differ_witness :
  (exists self',
     update_state wallet puzzle_db [continuing_spend] = (self', Ok 1) /\
     lineage_proof self'
     = Program_to
         (CList [CBytes (parent_coin_info (current_state wallet));
                 CBytes (get_tree_hash ANYONE_CAN_SPEND_PUZZLE);
                 CInt (amount child)])) /\
  lineage_proof_for_coin_spend continuing_spend
  = raise (ValueError "not enough values to unpack").
Proof.
  apply (lineage_proofs_differ wallet puzzle_db continuing_spend
           [child; mkCoin (coin_name current_coin) [Byte.xcc] 2] child
           ANYONE_CAN_SPEND_PUZZLE).
  - reflexivity.
  - compute_done.
  - reflexivity.
  - vm_compute. reflexivity.
  - reflexivity.
  - reflexivity.
Defined.

Example lineage_proofs_run :
  lineage_proof (fst (update_state wallet puzzle_db [continuing_spend]))
    = Reference.list_to_program
        [Atom [Byte.xaa]; Atom (Reference.get_tree_hash ANYONE_CAN_SPEND_PUZZLE);
         Atom [Byte.x01]] /\
  amount (coin continuing_spend) = 3 /\
  lineage_proof_for_coin_spend continuing_spend
    = raise (ValueError "not enough values to unpack").
Proof. repeat split; vm_compute; reflexivity. Qed.

End Examples.

Section RingExamples.

Import Scenario.
Import cat_utils.

Example ring_deltas : for_each delta_of [cat_a; cat_b] = Ok [3; -3].
Proof. vm_compute. reflexivity. Qed.

(** The guarantee of C3 on two CAT coins with deltas 3 and -3. *)
Lemma ring_builder_conservation_witness :
  exists bundle,
    unsigned_spend_bundle_for_spendable_cats CAT_MOD [cat_a; cat_b] = Ok bundle /\
    length (coin_spends bundle) = length [cat_a; cat_b] /\
    map Base.coin (coin_spends bundle) = map coin [cat_a; cat_b].
Proof.
  apply (ring_builder_conservation CAT_MOD [cat_a; cat_b] [3; -3]).
  - discriminate.
  - vm_compute. reflexivity.
  - reflexivity.
Defined.

(** One of the two coins alone does not balance. *)
Example ring_builder_unbalanced :
  unsigned_spend_bundle_for_spendable_cats CAT_MOD [cat_a]
  = raise (ValueError "input and output amounts don't match").
Proof. vm_compute. reflexivity. Qed.

(** C3 as stated fails on the empty list: its deltas sum to zero, and the
    builder raises all the same. *)
Lemma ring_builder_empty_balanced_raises :
  for_each delta_of [] = Ok [] /\
  py_sum [] = 0 /\
  unsigned_spend_bundle_for_spendable_cats CAT_MOD []
  = raise (ValueError MIN_EMPTY).
Proof. repeat split. Qed.

(** C10 as stated fails: on the empty list the builder returns no
    bundle, it raises. *)
Lemma ring_builder_empty_no_bundle :
  match unsigned_spend_bundle_for_spendable_cats CAT_MOD [] with
  | inr bundle => False
  | inl e => e = ValueError MIN_EMPTY
  end.
Proof. reflexivity. Qed.

End RingExamples.

Section LedgerExamples.

Import Scenario.
Import ledger_log.

(** The guarantee of C1 on the six entries: after the rollback to 100 a
    new coin is accepted at height 105. *)
Lemma rollback_spec_witness :
  exists st',
    append 1 (log_spend 7) 105 (rollback 100 1 six_entries) = (st', inr tt) /\
    entries st' = entries (rollback 100 1 six_entries) ++ [mkEntry 1 105 (log_spend 7)].
Proof.
  apply (rollback_spec 100 1 six_entries).
  - lia.
  - compute_done.
Defined.

Example rollback_six_entries :
  entries_for 1 (rollback 100 1 six_entries)
    = [(100%N, log_spend 1); (100%N, log_spend 2); (100%N, log_spend 3)] /\
  entries_for 1 (rollback 99 1 six_entries) = [].
Proof. split; vm_compute; reflexivity. Qed.

(** The guarantee of C2 on the log holding coin 1 at height 100: another
    coin at height 99 is refused as non-monotonic. *)
Lemma append_spec_witness :
  append 1 (log_spend 2) 99 one_entry = (one_entry, inl NonMonotonicHeightError).
Proof.
  apply (append_spec 1 (log_spend 2) 99 one_entry) with (p := 100%N).
  - apply append_consistent, empty_log_consistent.
  - compute_done.
  - reflexivity.
  - reflexivity.
Defined.

(** C2 as stated fails: the recorded coin appended at a lower height is
    below the owner's highest height and is not an exact match, and it is
    refused as a height conflict, not as non-monotonic. *)
Lemma append_lower_height_conflict :
  highest (heights_of 1 (entries one_entry)) = Some 100%N /\
  has_triple 1 (coin_name (coin (log_spend 1))) 99 (entries one_entry) = false /\
  append 1 (log_spend 1) 99 one_entry = (one_entry, inl HeightConflictError).
Proof. repeat split; vm_compute; reflexivity. Qed.

(** The test's sequence: idempotent append, conflict at another height,
    a lower height refused. *)
Example append_test_sequence :
  append 1 (log_spend 1) 100 one_entry = (one_entry, inr tt) /\
  append 1 (log_spend 1) 101 one_entry = (one_entry, inl HeightConflictError) /\
  append 1 (log_spend 2) 99 one_entry = (one_entry, inl NonMonotonicHeightError).
Proof. repeat split; vm_compute; reflexivity. Qed.

End LedgerExamples.

(** * Further properties of the code *)
Section RingLinkage.
Context `{L : Clvm}.

Import cat_utils.

Lemma py_getitem_lookup {A} (l : list A) (i : Z) (x : A) :
  0 <= i -> l !! Z.to_nat i = Some x -> py_getitem l i = Ok x.
Proof.
  intros Hi Hx.
  destruct (py_getitem_in_range l i) as (y & -> & Hy).
  { apply lookup_lt_Some in Hx. lia. }
  congruence.
Qed.

Lemma coin_spend_at_ring (mod_code : Program) (cats : list SpendableCAT)
    (subtotals : list Z) (i : nat) (prev me next : SpendableCAT) (subtotal : Z) :
  let N := Z.of_nat (length cats) in
  cats !! i = Some me ->
  cats !! Z.to_nat ((Z.of_nat i - 1) `mod` N) = Some prev ->
  cats !! Z.to_nat ((Z.of_nat i + 1) `mod` N) = Some next ->
  subtotals !! i = Some subtotal ->
  coin_spend_at mod_code cats subtotals
    (map next_info_for_spendable_cat cats)
    (map (fun s => Program_to (CList (coin_as_list (coin s)))) cats)
    (map (fun s => coin_name (coin s)) cats) N (Z.of_nat i)
  = Ok (ring_spend mod_code prev me next subtotal).
Proof.
  intros N Hme Hprev Hnext Hsub. unfold coin_spend_at.
  assert (HN : 0 < N) by (apply lookup_lt_Some in Hme; lia).
  assert (Hmod : forall j, 0 <= j `mod` N) by (intros j; apply Z.mod_pos_bound; lia).
  rewrite (py_getitem_lookup cats (Z.of_nat i) me) by (rewrite ?Nat2Z.id; auto; lia).
  simpl.
  rewrite (py_getitem_lookup _ ((Z.of_nat i - 1) `mod` N) (coin_name (coin prev)));
    [| apply Hmod | rewrite list_lookup_fmap, Hprev; reflexivity].
  simpl.
  rewrite (py_getitem_lookup _ (Z.of_nat i) (Program_to (CList (coin_as_list (coin me)))));
    [| lia | rewrite Nat2Z.id, list_lookup_fmap, Hme; reflexivity].
  simpl.
  rewrite (py_getitem_lookup _ ((Z.of_nat i + 1) `mod` N) (next_info_for_spendable_cat next));
    [| apply Hmod | rewrite list_lookup_fmap, Hnext; reflexivity].
  simpl.
  rewrite (py_getitem_lookup subtotals (Z.of_nat i) subtotal)
    by (rewrite ?Nat2Z.id; auto; lia).
  reflexivity.
Qed.

(** In a bundle the builder returns, the spend at position [i] is the
    ring spend of member [i], linked to the members at [(i - 1) mod N]
    and [(i + 1) mod N] and carrying the normalised subtotal at [i]. *)
Theorem ring_builder_linkage (mod_code : Program) (cats : list SpendableCAT)
    (deltas subtotals : list Z) (bundle : WalletSpendBundle) (i : nat) (me : SpendableCAT) :
  for_each delta_of cats = Ok deltas ->
  subtotals_for_deltas deltas = Ok subtotals ->
  unsigned_spend_bundle_for_spendable_cats mod_code cats = Ok bundle ->
  cats !! i = Some me ->
  let N := Z.of_nat (length cats) in
  exists prev next subtotal,
    cats !! Z.to_nat ((Z.of_nat i - 1) `mod` N) = Some prev /\
    cats !! Z.to_nat ((Z.of_nat i + 1) `mod` N) = Some next /\
    subtotals !! i = Some subtotal /\
    coin_spends bundle !! i = Some (ring_spend mod_code prev me next subtotal).
Proof.
  intros Hdeltas Hsub Hbundle Hme N.
  assert (Hi : (i < length cats)%nat) by (eapply lookup_lt_Some; exact Hme).
  assert (Hlen : length deltas = length cats).
  { apply for_each_inv, Forall2_length in Hdeltas. lia. }
  assert (Hsublen : length subtotals = length cats).
  { destruct (subtotals_for_deltas_ok deltas) as (subs & Hsubs & Hl).
    - intros ->. simpl in Hlen. lia.
    - congruence. }
  assert (Hbound : forall j, (Z.to_nat (j `mod` N) < length cats)%nat).
  { intros j. pose proof (Z.mod_pos_bound j N). lia. }
  destruct (lookup_lt_is_Some_2 cats _ (Hbound (Z.of_nat i - 1))) as [prev Hprev].
  destruct (lookup_lt_is_Some_2 cats _ (Hbound (Z.of_nat i + 1))) as [next Hnext].
  destruct (lookup_lt_is_Some_2 subtotals i) as [subtotal Hsubtotal]; [lia|].
  exists prev, next, subtotal.
  split; [exact Hprev|]. split; [exact Hnext|]. split; [exact Hsubtotal|].
  unfold unsigned_spend_bundle_for_spendable_cats in Hbundle.
  rewrite Hdeltas in Hbundle. simpl in Hbundle.
  destruct (negb (py_sum deltas =? 0)); [discriminate|].
  rewrite Hsub in Hbundle. simpl in Hbundle.
  destruct (for_each _ (seqZ 0 (Z.of_nat (length cats)))) as [e|spends] eqn:Hspends;
    [discriminate|].
  simpl in Hbundle. injection Hbundle as <-. simpl.
  apply for_each_inv in Hspends.
  assert (Hseq : seqZ 0 (Z.of_nat (length cats)) !! i = Some (Z.of_nat i)).
  { rewrite lookup_seqZ. split; lia. }
  destruct (Forall2_lookup_l _ _ _ _ _ Hspends Hseq) as (cs & Hcs & Hat).
  rewrite Hcs. f_equal.
  enough (Hok : Ok cs = Ok (ring_spend mod_code prev me next subtotal)) by congruence.
  rewrite <- Hat.
  exact (coin_spend_at_ring mod_code cats subtotals i prev me next subtotal
           Hme Hprev Hnext Hsubtotal).
Qed.

End RingLinkage.

Section SolverRegistry.
Context `{L : Clvm} {Kwargs : Type}.

Import singleton_lifecycle.

(** [register_solver] refuses a hash that already has a builder, and
    otherwise registers the builder under that hash only. *)
Theorem register_solver_spec (self : Solver Kwargs) (h : bytes32)
    (solver_f : Solver_F Kwargs) :
  (is_Some (solvers_by_puzzle_hash Kwargs self !! h) ->
   register_solver Kwargs h solver_f self = raise (ValueError "solver registered for")) /\
  (solvers_by_puzzle_hash Kwargs self !! h = None ->
   exists self',
     register_solver Kwargs h solver_f self = Ok self' /\
     solvers_by_puzzle_hash Kwargs self' !! h = Some solver_f /\
     forall h', h' <> h ->
       solvers_by_puzzle_hash Kwargs self' !! h'
       = solvers_by_puzzle_hash Kwargs self !! h').
Proof.
  unfold register_solver. split.
  - intros [f Hf]. rewrite Hf. reflexivity.
  - intros Hnone. rewrite Hnone. eexists. split; [reflexivity|]. simpl. split.
    + apply lookup_insert_eq.
    + intros h' Hne. apply lookup_insert_ne. congruence.
Qed.

End SolverRegistry.

Section LauncherLineage.
Context `{L : Clvm}.

Import singleton_lifecycle.

(** For a spend of a launcher coin [lineage_proof_for_coin_spend] is the
    pair of the coin's parent id and amount, whatever the puzzle reveal. *)
Theorem lineage_proof_for_launcher_spend (s : CoinSpend) :
  puzzle_hash (coin s) = LAUNCHER_PUZZLE_HASH ->
  lineage_proof_for_coin_spend s
  = Ok (Program_to (CList [CBytes (parent_coin_info (coin s)); CInt (amount (coin s))])).
Proof.
  intros Hl. unfold lineage_proof_for_coin_spend.
  rewrite bool_decide_true by exact Hl. reflexivity.
Qed.

(** When no spend of the set consumes the wallet's coin, [update_state]
    returns 0 and leaves the wallet unchanged. *)
Theorem update_state_nothing_relevant (self : SingletonWallet) (db : gmap bytes32 Program)
    (removals : list CoinSpend) :
  Forall (fun s => ~ spends_coin (coin_name (current_state self)) s) removals ->
  update_state self db removals = (self, Ok 0).
Proof.
  intros Hnone. unfold update_state.
  rewrite removals_skip_others, (filter_none _ _ Hnone). reflexivity.
Qed.

End LauncherLineage.

Section FurtherExamples.

Import Scenario.
Import singleton_lifecycle.

(** The ring of the two CAT coins: the first spend names the second
    member as both its previous and its next neighbour. *)
Lemma ring_builder_linkage_witness :
  exists bundle prev next subtotal,
    cat_utils.unsigned_spend_bundle_for_spendable_cats CAT_MOD [cat_a; cat_b] = Ok bundle /\
    [cat_a; cat_b] !! 1%nat = Some prev /\
    [cat_a; cat_b] !! 1%nat = Some next /\
    [0; 3] !! 0%nat = Some subtotal /\
    cat_utils.coin_spends bundle !! 0%nat
    = Some (cat_utils.ring_spend CAT_MOD prev cat_a next subtotal).
Proof.
  destruct (cat_utils.unsigned_spend_bundle_for_spendable_cats CAT_MOD [cat_a; cat_b])
    as [e|bundle] eqn:Hbundle; [vm_compute in Hbundle; discriminate|].
  destruct (ring_builder_linkage CAT_MOD [cat_a; cat_b] [3; -3] [0; 3] bundle 0 cat_a)
    as (prev & next & subtotal & Hprev & Hnext & Hsub & Hspend).
  - vm_compute. reflexivity.
  - reflexivity.
  - exact Hbundle.
  - reflexivity.
  - exists bundle, prev, next, subtotal. auto.
Defined.

(** Registering a second builder for the singleton template is refused. *)
Lemma register_solver_spec_witness :
  register_solver _ (Reference.get_tree_hash Reference.SINGLETON_MOD) solve_singleton solver
  = raise (ValueError "solver registered for").
Proof.
  apply (register_solver_spec solver). compute_done.
Defined.

(** The lineage proof of a launcher spend of amount 1. *)
Lemma lineage_proof_for_launcher_spend_witness :
  lineage_proof_for_coin_spend
    (make_spend (mkCoin [Byte.x0a] Reference.LAUNCHER_PUZZLE_HASH 1)
       Reference.LAUNCHER_PUZZLE nil_program)
  = Ok (Program_to (CList [CBytes [Byte.x0a]; CInt 1])).
Proof. apply lineage_proof_for_launcher_spend. reflexivity. Defined.

(** A spend of some other coin leaves the wallet alone. *)
Lemma update_state_nothing_relevant_witness :
  update_state wallet puzzle_db [make_spend child nil_program nil_program]
  = (wallet, Ok 0).
Proof.
  apply update_state_nothing_relevant. compute_done.
Defined.


End FurtherExamples.

(** * The subtotals around the ring, the deltas and CAT puzzle matching *)
Section SubtotalRing.

Import cat_utils.

Lemma py_sum_snoc (l : list Z) (x : Z) : py_sum (l ++ [x]) = py_sum l + x.
Proof. unfold py_sum. rewrite fold_left_app. reflexivity. Qed.

Lemma py_sum_take_S (l : list Z) (i : nat) (d : Z) :
  l !! i = Some d -> py_sum (take (S i) l) = py_sum (take i l) + d.
Proof. intros H. rewrite (take_S_r _ _ _ H). apply py_sum_snoc. Qed.

Lemma subtotals_for_deltas_inv (deltas subtotals : list Z) :
  subtotals_for_deltas deltas = Ok subtotals ->
  exists m, subtotals = map (fun s => s - m) (prefixes 0 deltas).
Proof.
  unfold subtotals_for_deltas. rewrite subtotals_loop_prefixes.
  destruct (py_min (prefixes 0 deltas)) as [e|m]; simpl; [discriminate|].
  intros [= <-]. exists m. reflexivity.
Qed.

Lemma subtotals_lookup (deltas : list Z) (m : Z) (j : nat) :
  (j < length deltas)%nat ->
  map (fun s => s - m) (prefixes 0 deltas) !! j = Some (py_sum (take j deltas) - m).
Proof.
  intros Hj. rewrite list_lookup_fmap, (prefixes_lookup deltas 0 j Hj). reflexivity.
Qed.

(** The subtotals step by the deltas all the way around the ring: when
    the deltas sum to zero, the subtotal after position [i] (the first
    one again after the last position) is the subtotal at [i] plus the
    delta at [i]. *)
Theorem subtotals_ring_differences (deltas subtotals : list Z) (i : nat) (d : Z) :
  subtotals_for_deltas deltas = Ok subtotals ->
  py_sum deltas = 0 ->
  deltas !! i = Some d ->
  exists s s',
    subtotals !! i = Some s /\
    subtotals !! Nat.modulo (i + 1) (length deltas) = Some s' /\
    s' = s + d.
Proof.
  intros Hsub Hsum Hd.
  destruct (subtotals_for_deltas_inv deltas subtotals Hsub) as [m ->].
  assert (Hi : (i < length deltas)%nat) by (eapply lookup_lt_Some; exact Hd).
  exists (py_sum (take i deltas) - m).
  destruct (decide (i + 1 < length deltas)%nat) as [Hlt | Hge].
  - exists (py_sum (take (i + 1) deltas) - m).
    rewrite Nat.mod_small by exact Hlt.
    rewrite !subtotals_lookup by lia.
    split; [reflexivity|]. split; [reflexivity|].
    replace (i + 1)%nat with (S i) by lia.
    rewrite (py_sum_take_S deltas i d Hd). lia.
  - exists (0 - m).
    assert (Hlast : (i + 1)%nat = length deltas) by lia.
    rewrite Hlast, Nat.Div0.mod_same.
    rewrite !subtotals_lookup by lia.
    split; [reflexivity|]. split; [reflexivity|].
    pose proof (py_sum_take_S deltas i d Hd) as Hstep.
    rewrite take_ge in Hstep by lia.
    lia.
Qed.

End SubtotalRing.

Section DeltaFacts.
Context `{L : Clvm}.

Import cat_utils cat_matching.

Lemma created_amounts_cons_counted (c : ConditionWithArgs) (v : bytes)
    (conditions : list ConditionWithArgs) :
  vars c !! 1%nat = Some v -> v <> MELT_AMOUNT ->
  created_amounts (c :: conditions) = int_from_bytes v :: created_amounts conditions.
Proof.
  intros Hv Hne. unfold created_amounts. simpl. rewrite Hv.
  rewrite filter_cons_True by exact Hne. reflexivity.
Qed.

Lemma created_amounts_cons_melt (c : ConditionWithArgs)
    (conditions : list ConditionWithArgs) :
  vars c !! 1%nat = Some MELT_AMOUNT ->
  created_amounts (c :: conditions) = created_amounts conditions.
Proof.
  intros Hv. unfold created_amounts. simpl. rewrite Hv.
  rewrite filter_cons_False by (intros H; apply H; reflexivity). reflexivity.
Qed.

Lemma total_created_sum (conditions : list ConditionWithArgs) (total : Z) :
  Forall (fun c => (2 <= length (vars c))%nat) conditions ->
  total_created conditions total = Ok (total + py_sum (created_amounts conditions)).
Proof.
  intros Hall. revert total.
  induction Hall as [|c rest Hc _ IH]; intros total.
  - simpl. f_equal. unfold created_amounts, py_sum. simpl. lia.
  - destruct (lookup_lt_is_Some_2 (vars c) 1%nat) as [v Hv]; [lia|].
    simpl. rewrite Hv. case_bool_decide as Hmelt.
    + rewrite IH, (created_amounts_cons_counted c v rest Hv Hmelt), py_sum_cons.
      f_equal. lia.
    + assert (v = MELT_AMOUNT) as -> by (destruct (decide (v = MELT_AMOUNT)); tauto).
      rewrite IH, (created_amounts_cons_melt c rest Hv). reflexivity.
Qed.

Lemma total_created_short (conditions : list ConditionWithArgs) (total : Z) :
  Exists (fun c => (length (vars c) < 2)%nat) conditions ->
  total_created conditions total = raise IndexError.
Proof.
  intros Hex. revert total.
  induction Hex as [c rest Hc | c rest _ IH]; intros total; simpl.
  - rewrite (lookup_ge_None_2 (vars c) 1%nat) by lia. reflexivity.
  - destruct (vars c !! 1%nat) as [v|]; [|reflexivity].
    case_bool_decide; apply IH.
Qed.

(** The delta of a ring member, in closed form: its coin's amount plus
    its extra delta, minus the amounts of the CREATE_COIN conditions its
    inner puzzle produces, those with the melt marker [0x8f] left out.
    A CREATE_COIN condition with fewer than two arguments makes it raise
    [IndexError] instead. *)
Theorem delta_of_closed_form (spend_info : SpendableCAT)
    (conditions : gmap N (list ConditionWithArgs)) :
  conditions_dict_for_solution (inner_puzzle spend_info) (inner_solution spend_info)
    INFINITE_COST = Ok conditions ->
  let created := default [] (conditions !! CREATE_COIN) in
  (Forall (fun c => (2 <= length (vars c))%nat) created ->
   delta_of spend_info
   = Ok (amount (coin spend_info) + extra_delta spend_info
         - py_sum (created_amounts created))) /\
  (Exists (fun c => (length (vars c) < 2)%nat) created ->
   delta_of spend_info = raise IndexError).
Proof.
  intros Hrun created. unfold delta_of. rewrite Hrun. simpl. fold created. split.
  - intros Hall. rewrite (total_created_sum created _ Hall). simpl. f_equal. lia.
  - intros Hex. rewrite (total_created_short created _ Hex). reflexivity.
Qed.

(** A CAT puzzle built by [construct_cat_puzzle] is recognised again:
    when uncurrying gives back the template and the three curried
    arguments, [get_innerpuzzle_from_puzzle] returns the inner puzzle
    and [match_cat_puzzle] the three arguments. *)
Theorem cat_puzzle_round_trip (CAT_MOD : Program) (tail : bytes32) (inner : Program) :
  let puzzle := construct_cat_puzzle CAT_MOD tail (CProgram inner) None in
  let curried := [Atom (get_tree_hash CAT_MOD); Atom tail; inner] in
  uncurry puzzle = (CAT_MOD, Program_to (CList (map CProgram curried))) ->
  as_iter (Program_to (CList (map CProgram curried))) = Ok curried ->
  get_innerpuzzle_from_puzzle CAT_MOD puzzle = Ok inner /\
  match_cat_puzzle CAT_MOD
    (mkUncurriedPuzzle (fst (uncurry puzzle)) (snd (uncurry puzzle)))
  = Some (Ok curried).
Proof.
  intros puzzle curried Hu Hiter. split.
  - unfold get_innerpuzzle_from_puzzle. rewrite Hu.
    rewrite bool_decide_true by reflexivity. reflexivity.
  - unfold match_cat_puzzle. rewrite Hu. simpl.
    rewrite bool_decide_true by reflexivity. f_equal. exact Hiter.
Qed.

(** A puzzle whose template is not the CAT template is refused by both
    functions, whatever its curried arguments are. *)
Theorem not_a_cat_puzzle (CAT_MOD puzzle : Program) :
  fst (uncurry puzzle) <> CAT_MOD ->
  get_innerpuzzle_from_puzzle CAT_MOD puzzle = raise (ValueError "Not a CAT puzzle") /\
  match_cat_puzzle CAT_MOD
    (mkUncurriedPuzzle (fst (uncurry puzzle)) (snd (uncurry puzzle))) = None.
Proof.
  intros Hne. unfold get_innerpuzzle_from_puzzle, match_cat_puzzle.
  destruct (uncurry puzzle) as [m a]. simpl in *.
  rewrite !bool_decide_false by exact Hne. split; reflexivity.
Qed.

End DeltaFacts.

Section CatExamples.

Import Scenario.
Import cat_utils cat_matching.

(** The deltas 3, -5, 2: after the last position the ring is back at the
    first subtotal. *)
Lemma subtotals_ring_differences_witness :
  exists s s' : Z,
    [2; 5; 0] !! 2%nat = Some s /\ [2; 5; 0] !! 0%nat = Some s' /\ s' = s + 2.
Proof.
  apply (subtotals_ring_differences [3; -5; 2] [2; 5; 0] 2 2); reflexivity.
Defined.

(** The CAT coin of 10 that pays out 7 has delta 3. *)
Lemma delta_of_closed_form_witness :
  delta_of cat_a = Ok (10 + 0 - py_sum [7]).
Proof.
  pose (conditions :=
          match conditions_dict_for_solution (inner_puzzle cat_a) (inner_solution cat_a)
                  INFINITE_COST with
          | inr c => c
          | inl _ => ∅
          end).
  assert (Hrun : conditions_dict_for_solution (inner_puzzle cat_a) (inner_solution cat_a)
                   INFINITE_COST = Ok conditions) by (vm_compute; reflexivity).
  destruct (delta_of_closed_form cat_a conditions Hrun) as [Hok _].
  rewrite Hok.
  - vm_compute. reflexivity.
  - vm_compute. repeat constructor.
Defined.

(** The CAT puzzle around the puzzle [1] gives the puzzle [1] back. *)
Lemma cat_puzzle_round_trip_witness :
  get_innerpuzzle_from_puzzle CAT_MOD
    (construct_cat_puzzle CAT_MOD [Byte.x7a] (CProgram ANYONE_CAN_SPEND_PUZZLE) None)
  = Ok ANYONE_CAN_SPEND_PUZZLE.
Proof.
  apply (cat_puzzle_round_trip CAT_MOD [Byte.x7a] ANYONE_CAN_SPEND_PUZZLE);
    vm_compute; reflexivity.
Defined.

(** A singleton puzzle is not a CAT puzzle. *)
Lemma not_a_cat_puzzle_witness :
  get_innerpuzzle_from_puzzle CAT_MOD full_puzzle = raise (ValueError "Not a CAT puzzle").
Proof.
  apply (not_a_cat_puzzle CAT_MOD full_puzzle). vm_compute. discriminate.
Defined.

End CatExamples.

(** * The puzzle database and the wallet's walk over odd children *)
Section PuzzleDBFacts.
Context `{L : Clvm}.

Import singleton_lifecycle singleton_helpers.

Lemma add_puzzles_lookup (ps : list Program) (db : gmap bytes32 Program)
    (h : bytes32) (p : Program) :
  puzzle_for_hash (fold_left (fun d q => add_puzzle q d) ps db) h = Some p ->
  (get_tree_hash p = h /\ p ∈ ps) \/ puzzle_for_hash db h = Some p.
Proof.
  revert db. induction ps as [|q ps IH]; intros db Hl; simpl in Hl; [right; exact Hl|].
  destruct (IH _ Hl) as [[Hh Hin] | Hdb].
  - left. split; [exact Hh | right; exact Hin].
  - unfold puzzle_for_hash, add_puzzle in Hdb.
    destruct (decide (get_tree_hash q = h)) as [Heq | Hne].
    + subst h. rewrite lookup_insert_eq in Hdb. injection Hdb as <-.
      left. split; [reflexivity | left].
    + rewrite lookup_insert_ne in Hdb by exact Hne. right. exact Hdb.
Qed.

Lemma add_puzzles_keeps (ps : list Program) (db : gmap bytes32 Program) (h : bytes32) :
  is_Some (puzzle_for_hash db h) ->
  is_Some (puzzle_for_hash (fold_left (fun d q => add_puzzle q d) ps db) h).
Proof.
  revert db. induction ps as [|q ps IH]; intros db Hs; simpl; [exact Hs|].
  apply IH. unfold puzzle_for_hash, add_puzzle.
  destruct (decide (get_tree_hash q = h)) as [<- | Hne].
  - rewrite lookup_insert_eq. eauto.
  - rewrite lookup_insert_ne by exact Hne. exact Hs.
Qed.

(** In a database filled by [add_puzzle] alone, whatever
    [puzzle_for_hash] finds under a hash is one of the added puzzles and
    has that tree hash; and the hash of every added puzzle finds a
    puzzle (the one added last with that hash). *)
Theorem puzzle_db_keyed_by_hash (ps : list Program) :
  let db := fold_left (fun d q => add_puzzle q d) ps ∅ in
  (forall h p, puzzle_for_hash db h = Some p -> get_tree_hash p = h /\ p ∈ ps) /\
  (forall p, p ∈ ps ->
     exists q, puzzle_for_hash db (get_tree_hash p) = Some q /\
               get_tree_hash q = get_tree_hash p /\ q ∈ ps).
Proof.
  intros db. assert (Hsound : forall h p, puzzle_for_hash db h = Some p ->
                                get_tree_hash p = h /\ p ∈ ps).
  { intros h p Hl. destruct (add_puzzles_lookup ps ∅ h p Hl) as [H | H]; [exact H|].
    unfold puzzle_for_hash in H. rewrite lookup_empty in H. discriminate. }
  split; [exact Hsound|].
  intros p Hin.
  assert (Hsome : is_Some (puzzle_for_hash db (get_tree_hash p))).
  { unfold db. clear Hsound db. generalize (∅ : gmap bytes32 Program).
    induction ps as [|q ps IH]; intros db; [inversion Hin|].
    simpl. apply elem_of_cons in Hin as [-> | Hin].
    - apply add_puzzles_keeps. unfold puzzle_for_hash, add_puzzle.
      rewrite lookup_insert_eq. eauto.
    - apply IH. exact Hin. }
  destruct Hsome as [q Hq]. exists q. split; [exact Hq|].
  destruct (Hsound _ _ Hq) as [Hh Hq_in]. split; assumption.
Qed.

Lemma last_cons_default {A} (x d : A) (l : list A) :
  List.last (x :: l) d = List.last l x.
Proof.
  revert x d. induction l as [|y l IH]; intros x d; [reflexivity|].
  change (List.last (x :: y :: l) d) with (List.last (y :: l) d).
  rewrite (IH y d), (IH y x). reflexivity.
Qed.

Lemma last_app_default {A} (l1 l2 : list A) (d : A) :
  List.last (l1 ++ l2) d = List.last l2 (List.last l1 d).
Proof.
  revert d. induction l1 as [|x l1 IH]; intros d; [reflexivity|].
  rewrite <- app_comm_cons, !last_cons_default. apply IH.
Qed.

Lemma additions_count (db : gmap bytes32 Program) (cs : CoinSpend)
    (additions : list Coin) (self self' : SingletonWallet) (n0 n : Z) :
  update_state_additions db cs additions self n0 = (self', Ok n) ->
  n = n0 + Z.of_nat (length (filter odd_amount additions)) /\
  current_state self'
  = List.last (filter odd_amount additions) (current_state self).
Proof.
  revert self n0. induction additions as [|c rest IH]; intros self n0 Hrun.
  - simpl in Hrun. injection Hrun as <- <-. simpl. split; [lia | reflexivity].
  - simpl in Hrun. destruct (Z.land (amount c) 1 =? 1) eqn:Hodd.
    + apply Z.eqb_eq in Hodd.
      rewrite filter_cons_True by exact Hodd.
      destruct (puzzle_for_hash db (puzzle_hash (coin cs))) as [p|];
        [|inversion Hrun].
      destruct (inner_puzzle_for_puzzle self p) as [e|inner]; [inversion Hrun|].
      destruct (IH _ _ Hrun) as [Hn Hstate]. simpl in Hstate.
      rewrite last_cons_default. split; [simpl; lia | exact Hstate].
    + apply Z.eqb_neq in Hodd.
      rewrite filter_cons_False by exact Hodd.
      apply IH. exact Hrun.
Qed.

Lemma removals_count (db : gmap bytes32 Program) (name : bytes32)
    (removals : list CoinSpend) (self self' : SingletonWallet) (n0 n : Z) :
  update_state_removals db name removals self n0 = (self', Ok n) ->
  let children := concat (map odd_children (filter (spends_coin name) removals)) in
  n = n0 + Z.of_nat (length children) /\
  current_state self' = List.last children (current_state self).
Proof.
  revert self n0. induction removals as [|s rest IH]; intros self n0 Hrun.
  - simpl in Hrun. injection Hrun as <- <-. simpl. split; [lia | reflexivity].
  - simpl in Hrun. case_bool_decide as Hs.
    + rewrite filter_cons_True by exact Hs. simpl.
      unfold odd_children at 1 3.
      destruct (compute_additions s) as [e|additions]; [inversion Hrun|].
      destruct (update_state_additions db s additions self n0) as [self1 [e|n1]] eqn:Hadd;
        [inversion Hrun|].
      destruct (additions_count _ _ _ _ _ _ _ Hadd) as [Hn1 Hs1].
      destruct (IH _ _ Hrun) as [Hn Hstate]. simpl in Hn, Hstate.
      rewrite length_app, last_app_default, <- Hs1. split; [lia | exact Hstate].
    + rewrite filter_cons_False by exact Hs. apply IH. exact Hrun.
Qed.

(** Whenever [update_state] returns, the count is the number of
    odd-amount coins created by the spends of the coin the wallet was at
    when called, and the wallet is at the last of those coins (where it
    was, if there is none). *)
Theorem update_state_counts_odd_children (self self' : SingletonWallet)
    (db : gmap bytes32 Program) (removals : list CoinSpend) (n : Z) :
  update_state self db removals = (self', Ok n) ->
  let children :=
    concat (map odd_children
              (filter (spends_coin (coin_name (current_state self))) removals)) in
  n = Z.of_nat (length children) /\
  current_state self' = List.last children (current_state self).
Proof.
  intros Hrun. apply (removals_count db _ removals self self' 0 n Hrun).
Qed.

(** A failed [update_state] is not undone: when the spend of the current
    coin creates a second odd-amount coin and the first one has another
    puzzle hash than the spent coin, the call raises [AssertionError]
    with the wallet already moved to the first odd coin. *)
Theorem update_state_second_odd_child_fails (self : SingletonWallet)
    (db : gmap bytes32 Program) (s : CoinSpend) (additions : list Coin)
    (c1 c2 : Coin) (more : list Coin) (p inner : Program) :
  spends_coin (coin_name (current_state self)) s ->
  compute_additions s = Ok additions ->
  filter odd_amount additions = c1 :: c2 :: more ->
  puzzle_for_hash db (puzzle_hash (coin s)) = Some p ->
  inner_puzzle_for_puzzle self p = Ok inner ->
  puzzle_hash c1 <> puzzle_hash (current_state self) ->
  update_state self db [s] = (advanced self inner c1, raise AssertionError).
Proof.
  intros Hspends Hadd Hodd Hp Hinner Hne.
  assert (Hhash : get_tree_hash p = puzzle_hash (current_state self)).
  { unfold inner_puzzle_for_puzzle in Hinner.
    case_bool_decide as Hh; [exact Hh | discriminate]. }
  assert (Hc : forall c, c ∈ filter odd_amount additions ->
                      (Z.land (amount c) 1 =? 1) = true).
  { intros c Hin. apply list_elem_of_filter in Hin as [Hc _]. apply Z.eqb_eq. exact Hc. }
  unfold update_state. simpl.
  rewrite bool_decide_true by exact Hspends.
  rewrite Hadd, additions_skip_even, Hodd. simpl.
  rewrite (Hc c1) by (rewrite Hodd; left).
  rewrite Hp, Hinner.
  rewrite (Hc c2) by (rewrite Hodd; right; left).
  unfold inner_puzzle_for_puzzle at 1. simpl.
  rewrite bool_decide_false by congruence. reflexivity.
Qed.

(** The inner puzzle is read back from the singleton puzzle: for a
    wallet whose coin carries the hash of [singleton_puzzle] around
    [inner], with that puzzle added to the database,
    [SingletonWallet.inner_puzzle] returns [inner]; with no puzzle for
    the coin in the database it returns [None]. *)
Theorem inner_puzzle_round_trip (self : SingletonWallet) (db : gmap bytes32 Program)
    (inner struct args : Program) :
  let full := singleton_puzzle (launcher_id self) (launcher_puzzle_hash self) inner in
  puzzle_hash (current_state self) = get_tree_hash full ->
  uncurry full = (SINGLETON_MOD, args) ->
  as_iter args = Ok [struct; inner] ->
  inner_puzzle self (add_puzzle full db) = Ok (Some inner) /\
  inner_puzzle self (delete (get_tree_hash full) db) = Ok None.
Proof.
  intros full Hhash Hu Hargs. unfold inner_puzzle, puzzle_for_hash, add_puzzle.
  rewrite Hhash. split.
  - rewrite lookup_insert_eq. unfold inner_puzzle_for_puzzle.
    rewrite bool_decide_true by (symmetry; exact Hhash). simpl.
    rewrite Hu. rewrite bool_decide_true by reflexivity. simpl.
    rewrite Hargs. reflexivity.
  - rewrite lookup_delete_eq. reflexivity.
Qed.

End PuzzleDBFacts.

(** * The registered builders *)
Section SolverBuilders.
Context `{L : Clvm}.

Import singleton_lifecycle singleton_helpers.

Lemma from_kwargs_found (kwargs : gmap string KwargValue) (key : string)
    (v : KwargValue) (hint : TypeHint) :
  kwargs !! key = Some v -> satisfies_hint v hint = true ->
  from_kwargs kwargs key hint = Ok v.
Proof. intros Hk Hs. unfold from_kwargs. rewrite Hk, Hs. reflexivity. Qed.

(** Solving a singleton puzzle through the registry: the inner puzzle is
    solved first, then the solution is the lineage proof, the amount and
    the inner solution without its first element. *)
Lemma solve_singleton_wraps (depth : nat) (self : Solver (gmap string KwargValue))
    (db : gmap bytes32 Program) (full args struct inner lp : Program) (amt : Z)
    (kwargs : gmap string KwargValue) :
  solvers_by_puzzle_hash _ self !! get_tree_hash full = None ->
  uncurry full = (SINGLETON_MOD, args) ->
  as_iter args = Ok [struct; inner] ->
  solvers_by_puzzle_hash _ self !! get_tree_hash SINGLETON_MOD = Some solve_singleton ->
  kwargs !! "lineage_proof" = Some (KwProgram lp) ->
  kwargs !! "coin_amount" = Some (KwUint64 amt) ->
  solve _ (S depth) self db full kwargs
  = (inner_solution ← solve _ depth self db inner kwargs;
     inner_rest ← rest inner_solution;
     Ok (Program_to (CList [CProgram lp; CInt amt; CProgram inner_rest]))).
Proof.
  intros Hown Hu Hargs Hreg Hlp Hamt.
  rewrite solve_unfold. unfold solve_body.
  rewrite (solve_lookup_key_template self full _ _ _ Hown Hu Hargs). simpl.
  rewrite Hreg. unfold solve_singleton.
  destruct (solve _ depth self db inner kwargs) as [e|inner_solution]; [reflexivity|].
  simpl.
  rewrite (from_kwargs_found kwargs "lineage_proof" _ HProgram Hlp eq_refl). simpl.
  rewrite (from_kwargs_found kwargs "coin_amount" _ HUint64 Hamt eq_refl). simpl.
  destruct (rest inner_solution); reflexivity.
Qed.

Lemma solve_registered_own (depth : nat) (self : Solver (gmap string KwargValue))
    (db : gmap bytes32 Program) (puzzle : Program) (f : Solver_F (gmap string KwargValue))
    (kwargs : gmap string KwargValue) :
  solvers_by_puzzle_hash _ self !! get_tree_hash puzzle = Some f ->
  solve _ (S depth) self db puzzle kwargs = f (solve _ depth self) db [] kwargs.
Proof.
  intros Hown. rewrite solve_unfold. unfold solve_body.
  rewrite (solve_lookup_key_own self puzzle f Hown). simpl.
  rewrite Hown. reflexivity.
Qed.

(** The padding goes in and comes out: for a singleton around a puzzle
    registered with [solve_anyone_can_spend_with_padding], [solve]
    returns the lineage proof, the amount and the conditions, all of
    them. *)
Theorem solve_singleton_padded_inner (depth : nat)
    (self : Solver (gmap string KwargValue)) (db : gmap bytes32 Program)
    (full args struct inner lp : Program) (amt : Z) (conditions : list Program)
    (kwargs : gmap string KwargValue) :
  solvers_by_puzzle_hash _ self !! get_tree_hash full = None ->
  uncurry full = (SINGLETON_MOD, args) ->
  as_iter args = Ok [struct; inner] ->
  solvers_by_puzzle_hash _ self !! get_tree_hash SINGLETON_MOD = Some solve_singleton ->
  solvers_by_puzzle_hash _ self !! get_tree_hash inner
    = Some solve_anyone_can_spend_with_padding ->
  kwargs !! "conditions" = Some (KwProgramList conditions) ->
  kwargs !! "lineage_proof" = Some (KwProgram lp) ->
  kwargs !! "coin_amount" = Some (KwUint64 amt) ->
  solve _ (S (S depth)) self db full kwargs
  = Ok (Program_to
          (CList [CProgram lp; CInt amt;
                  CProgram (Program_to (CList (map CProgram conditions)))])).
Proof.
  intros Hown Hu Hargs Hreg Hinner Hcond Hlp Hamt.
  rewrite (solve_singleton_wraps _ self db full args struct inner lp amt kwargs
             Hown Hu Hargs Hreg Hlp Hamt).
  rewrite (solve_registered_own depth self db inner _ kwargs Hinner).
  unfold solve_anyone_can_spend_with_padding.
  rewrite (from_kwargs_found kwargs "conditions" _ HProgramList Hcond eq_refl).
  reflexivity.
Qed.

(** For a singleton directly around a puzzle registered with
    [solve_anyone_can_spend], the solution [solve] returns carries the
    conditions without the first one; with no condition at all the call
    raises. *)
Theorem solve_singleton_bare_inner (depth : nat)
    (self : Solver (gmap string KwargValue)) (db : gmap bytes32 Program)
    (full args struct inner lp : Program) (amt : Z) (conditions : list Program)
    (kwargs : gmap string KwargValue) :
  solvers_by_puzzle_hash _ self !! get_tree_hash full = None ->
  uncurry full = (SINGLETON_MOD, args) ->
  as_iter args = Ok [struct; inner] ->
  solvers_by_puzzle_hash _ self !! get_tree_hash SINGLETON_MOD = Some solve_singleton ->
  solvers_by_puzzle_hash _ self !! get_tree_hash inner = Some solve_anyone_can_spend ->
  kwargs !! "conditions" = Some (KwProgramList conditions) ->
  kwargs !! "lineage_proof" = Some (KwProgram lp) ->
  kwargs !! "coin_amount" = Some (KwUint64 amt) ->
  match conditions with
  | [] => exists e, solve _ (S (S depth)) self db full kwargs = raise e
  | _ :: others =>
      solve _ (S (S depth)) self db full kwargs
      = Ok (Program_to
              (CList [CProgram lp; CInt amt;
                      CProgram (Program_to (CList (map CProgram others)))]))
  end.
Proof.
  intros Hown Hu Hargs Hreg Hinner Hcond Hlp Hamt.
  rewrite (solve_singleton_wraps _ self db full args struct inner lp amt kwargs
             Hown Hu Hargs Hreg Hlp Hamt).
  rewrite (solve_registered_own depth self db inner _ kwargs Hinner).
  unfold solve_anyone_can_spend.
  rewrite (from_kwargs_found kwargs "conditions" _ HProgramList Hcond eq_refl).
  destruct conditions as [|c others]; simpl; [eexists|]; reflexivity.
Qed.

(** [solve_p2_singleton] returns a solution only for the spend type
    [claim-p2-nft] with both hashes given, and then the solution is the
    pair of them; the spend type [delayed-spend] is allowed and never
    solved. *)
Theorem solve_p2_singleton_spec (recur : SolveCallback (gmap string KwargValue))
    (db : gmap bytes32 Program) (args : list Program) (kwargs : gmap string KwargValue) :
  (forall sol,
     solve_p2_singleton recur db args kwargs = Ok sol <->
     exists h n,
       kwargs !! "p2_singleton_spend_type" = Some (KwStr "claim-p2-nft") /\
       kwargs !! "singleton_inner_puzzle_hash" = Some (KwBytes32 h) /\
       kwargs !! "p2_singleton_coin_name" = Some (KwBytes32 n) /\
       sol = Program_to (CList [CBytes h; CBytes n])) /\
  (kwargs !! "p2_singleton_spend_type" = Some (KwStr "delayed-spend") ->
   solve_p2_singleton recur db args kwargs
   = raise (ValueError "can't solve `delayed-spend` yet")).
Proof.
  split.
  - intros sol. unfold solve_p2_singleton, from_kwargs. split.
    + destruct (kwargs !! "p2_singleton_spend_type") as [[| | |spend_type|]|];
        simpl; try discriminate.
      case_bool_decide as Hallow; simpl; [|discriminate].
      case_bool_decide as Hclaim; [subst spend_type|discriminate].
      destruct (kwargs !! "singleton_inner_puzzle_hash") as [[| |h| |]|];
        simpl; try discriminate.
      destruct (kwargs !! "p2_singleton_coin_name") as [[| |n| |]|];
        simpl; try discriminate.
      intros [= <-]. exists h, n. auto.
    + intros (h & n & -> & -> & -> & ->). reflexivity.
  - intros Ht. unfold solve_p2_singleton, from_kwargs. rewrite Ht. reflexivity.
Qed.

End SolverBuilders.

(** * Spending, finding and filtering singletons *)
Section WalletHelpers.
Context `{L : Clvm}.

Import singleton_lifecycle singleton_helpers.

(** For a wallet whose coin is a singleton around the padded
    anyone-can-spend puzzle, [coin_spend_for_conditions] spends the
    current coin with the puzzle the database holds for it, and the
    solution is the wallet's own lineage proof, the coin's amount and
    the conditions asked for. *)
Theorem coin_spend_for_conditions_padded (SOLVER : Solver (gmap string KwargValue))
    (depth : nat) (self : SingletonWallet) (db : gmap bytes32 Program)
    (full args struct inner : Program) (conditions : list Program)
    (kwargs : gmap string KwargValue) :
  puzzle_for_hash db (puzzle_hash (current_state self)) = Some full ->
  solvers_by_puzzle_hash _ SOLVER !! get_tree_hash full = None ->
  uncurry full = (SINGLETON_MOD, args) ->
  as_iter args = Ok [struct; inner] ->
  solvers_by_puzzle_hash _ SOLVER !! get_tree_hash SINGLETON_MOD = Some solve_singleton ->
  solvers_by_puzzle_hash _ SOLVER !! get_tree_hash inner
    = Some solve_anyone_can_spend_with_padding ->
  kwargs !! "conditions" = Some (KwProgramList conditions) ->
  Forall (fun k => kwargs !! k = None) bound_keywords ->
  coin_spend_for_conditions SOLVER (S (S depth)) self db kwargs
  = Ok (make_spend (current_state self) full
          (Program_to
             (CList [CProgram (lineage_proof self);
                     CInt (amount (current_state self));
                     CProgram (Program_to (CList (map CProgram conditions)))]))).
Proof.
  intros Hp Hown Hu Hargs Hreg Hinner Hcond Hfree.
  unfold coin_spend_for_conditions. rewrite Hp.
  rewrite bool_decide_false.
  2:{ intros Hex. apply Exists_exists in Hex as (k & Hk & [v Hv]).
      rewrite Forall_forall in Hfree. rewrite (Hfree k Hk) in Hv. discriminate. }
  rewrite (solve_singleton_padded_inner depth SOLVER db full args struct inner
             (lineage_proof self) (amount (current_state self)) conditions);
    try assumption.
  - reflexivity.
  - rewrite !lookup_insert_ne by discriminate. exact Hcond.
  - apply lookup_insert_eq.
  - rewrite lookup_insert_ne by discriminate. apply lookup_insert_eq.
Qed.


Lemma py_getitem_zero {A} (l : list A) (x : A) :
  py_getitem l 0 = Ok x -> exists more, l = x :: more.
Proof.
  destruct l as [|y more]; [discriminate|].
  unfold py_getitem. simpl.
  destruct (Z.pos (Pos.of_succ_nat (length more)) <=? 0) eqn:Hle;
    [apply Z.leb_le in Hle; lia|].
  simpl. intros [= <-]. exists more. reflexivity.
Qed.

Lemma interesting_singleton_inv (s : CoinSpend) (w : SingletonWallet) :
  puzzle_hash (coin s) = LAUNCHER_PUZZLE_HASH ->
  interesting_singleton s = Ok w -> records_launch s w.
Proof.
  intros Hl. unfold interesting_singleton, lineage_proof_for_coin_spend.
  rewrite bool_decide_true by exact Hl.
  destruct (solution s) as [|a [|b [|kv more]]] eqn:Hsol; simpl; try discriminate.
  destruct (compute_additions s) as [e|additions] eqn:Hadd; simpl; [discriminate|].
  destruct (py_getitem additions 0) as [e|eve] eqn:Heve; simpl; [discriminate|].
  intros [= <-]. apply py_getitem_zero in Heve as [rest_additions ->].
  unfold records_launch. simpl.
  split; [reflexivity|]. split; [exact Hl|]. split; [reflexivity|].
  split; [exists rest_additions; exact Hadd|]. exists a, b, more. exact Hsol.
Qed.

Lemma find_interesting_singletons_loop_inv (removals : list CoinSpend)
    (acc singletons : list SingletonWallet) :
  find_interesting_singletons_loop removals acc = Ok singletons ->
  exists found,
    singletons = acc ++ found /\
    Forall2 records_launch
      (filter (fun s => puzzle_hash (coin s) = LAUNCHER_PUZZLE_HASH) removals) found.
Proof.
  revert acc. induction removals as [|s removals IH]; intros acc Hrun; simpl in Hrun.
  - injection Hrun as <-. exists []. rewrite app_nil_r. split; [reflexivity | constructor].
  - case_bool_decide as Hl.
    + rewrite filter_cons_True by exact Hl.
      destruct (interesting_singleton s) as [e|w] eqn:Hw; simpl in Hrun; [discriminate|].
      destruct (IH _ Hrun) as (found & -> & Hall).
      exists (w :: found). rewrite <- app_assoc. split; [reflexivity|].
      constructor; [|exact Hall]. apply interesting_singleton_inv; assumption.
    + rewrite filter_cons_False by exact Hl. apply IH. exact Hrun.
Qed.

(** The wallets [find_interesting_singletons] returns are, in order, one
    per spend of a launcher coin: the launcher id is that coin's name,
    the current coin is the first coin the spend creates, the key-value
    list is the third element of its solution, and the lineage proof is
    the launcher form (parent id and amount); the form with an inner
    puzzle hash never occurs here. *)
Theorem find_interesting_singletons_spec (removals : list CoinSpend)
    (singletons : list SingletonWallet) :
  find_interesting_singletons removals = Ok singletons ->
  Forall2 records_launch
    (filter (fun s => puzzle_hash (coin s) = LAUNCHER_PUZZLE_HASH) removals) singletons.
Proof.
  intros Hrun.
  destruct (find_interesting_singletons_loop_inv removals [] singletons Hrun)
    as (found & -> & Hall).
  exact Hall.
Qed.

Lemma filter_p2_singleton_loop_spec (P2 : bytes32) (db : gmap bytes32 Program)
    (additions r : list Coin) :
  exists kept,
    filter_p2_singleton_loop P2 db additions r = r ++ kept /\
    kept `sublist_of` additions /\
    (forall c, c ∈ kept <-> c ∈ additions /\ is_p2_singleton P2 db c).
Proof.
  revert r. induction additions as [|c additions IH]; intros r; simpl.
  - exists []. rewrite app_nil_r. split; [reflexivity|]. split; [constructor|].
    intros c. split; [intros H; inversion H | intros [H _]; inversion H].
  - destruct (puzzle_for_hash db (puzzle_hash c)) as [puzzle|] eqn:Hp.
    + destruct (uncurry puzzle) as [template curried] eqn:Hu.
      case_bool_decide as Hh.
      * destruct (IH (r ++ [c])) as (kept & -> & Hsub & Hiff).
        exists (c :: kept). rewrite <- app_assoc. split; [reflexivity|].
        split; [constructor; exact Hsub|].
        intros c'. rewrite !elem_of_cons, Hiff. split.
        -- intros [-> | [Hin Hc']]; [|tauto].
           split; [left; reflexivity|]. exists puzzle. rewrite Hu. auto.
        -- intros [[-> | Hin] Hc']; [left; reflexivity | right; tauto].
      * destruct (IH r) as (kept & -> & Hsub & Hiff).
        exists kept. split; [reflexivity|]. split; [constructor; exact Hsub|].
        intros c'. rewrite elem_of_cons, Hiff. split; [tauto|].
        intros [[-> | Hin] Hc']; [|tauto].
        destruct Hc' as (puzzle' & Hp' & Hh'). rewrite Hp in Hp'.
        injection Hp' as <-. rewrite Hu in Hh'. simpl in Hh'. contradiction.
    + destruct (IH r) as (kept & -> & Hsub & Hiff).
      exists kept. split; [reflexivity|]. split; [constructor; exact Hsub|].
      intros c'. rewrite elem_of_cons, Hiff. split; [tauto|].
      intros [[-> | Hin] Hc']; [|tauto].
      destruct Hc' as (puzzle' & Hp' & _). rewrite Hp in Hp'. discriminate.
Qed.

(** [filter_p2_singleton] keeps, in their order, exactly the coins whose
    puzzle the database knows and whose template hashes to
    [P2_SINGLETON_MOD_HASH]; a coin with an unknown puzzle is dropped. *)
Theorem filter_p2_singleton_spec (P2 : bytes32) (db : gmap bytes32 Program)
    (additions : list Coin) :
  filter_p2_singleton P2 db additions `sublist_of` additions /\
  (forall c, c ∈ filter_p2_singleton P2 db additions
             <-> c ∈ additions /\ is_p2_singleton P2 db c).
Proof.
  unfold filter_p2_singleton.
  destruct (filter_p2_singleton_loop_spec P2 db additions []) as (kept & -> & Hsub & Hiff).
  simpl. split; assumption.
Qed.

End WalletHelpers.

Section LifecycleExamples.

Import Scenario MoreScenario.
Import singleton_lifecycle singleton_helpers.

(** The spend with two odd children that keep the puzzle hash: the count
    is 2 and the wallet is at the second one. *)
Lemma update_state_counts_odd_children_witness :
  let self' := fst (update_state wallet puzzle_db [two_odd_spend]) in
  let children :=
    concat (map odd_children
              (filter (spends_coin (Reference.coin_name (current_state wallet)))
                 [two_odd_spend])) in
  2 = Z.of_nat (length children) /\
  current_state self' = List.last children (current_state wallet).
Proof.
  intros self' children.
  assert (Hrun : update_state wallet puzzle_db [two_odd_spend] = (self', Ok 2))
    by (vm_compute; reflexivity).
  exact (update_state_counts_odd_children wallet self' puzzle_db [two_odd_spend] 2 Hrun).
Defined.

(** Two odd children with puzzle hashes of their own: the wallet moves
    to the first and the call fails at the second. *)
Lemma update_state_second_odd_child_fails_witness :
  update_state wallet puzzle_db [stray_odd_spend]
  = (advanced wallet ANYONE_CAN_SPEND_PUZZLE
       (mkCoin (Reference.coin_name current_coin) [Byte.xbb] 1),
     raise AssertionError).
Proof.
  apply (update_state_second_odd_child_fails wallet puzzle_db stray_odd_spend
           [mkCoin (Reference.coin_name current_coin) [Byte.xbb] 1;
            mkCoin (Reference.coin_name current_coin) [Byte.xcc] 3]
           _ (mkCoin (Reference.coin_name current_coin) [Byte.xcc] 3) []
           full_puzzle ANYONE_CAN_SPEND_PUZZLE);
    try (vm_compute; reflexivity).
  vm_compute. discriminate.
Defined.

(** The wallet of the scenario finds the puzzle [1] inside its coin's
    puzzle. *)
Lemma inner_puzzle_round_trip_witness :
  inner_puzzle wallet (add_puzzle full_puzzle ∅) = Ok (Some ANYONE_CAN_SPEND_PUZZLE).
Proof.
  apply (inner_puzzle_round_trip wallet ∅ ANYONE_CAN_SPEND_PUZZLE singleton_struct
           (snd (Reference.uncurry full_puzzle)));
    vm_compute; reflexivity.
Defined.

(** Both conditions reach the solution of the padded singleton. *)
Lemma solve_singleton_padded_inner_witness :
  solve _ 2 SOLVER ∅ padded_full_puzzle solve_kwargs
  = Ok (Program_to
          (CList [CProgram (lineage_proof padded_wallet); CInt 1;
                  CProgram (Program_to (CList (map CProgram two_conditions)))])).
Proof.
  apply (solve_singleton_padded_inner 0 SOLVER ∅ padded_full_puzzle
           (snd (Reference.uncurry padded_full_puzzle)) singleton_struct PADDED_PUZZLE);
    vm_compute; reflexivity.
Defined.

(** Around the bare puzzle [1] only the second condition reaches it. *)
Lemma solve_singleton_bare_inner_witness :
  solve _ 2 SOLVER ∅ full_puzzle solve_kwargs
  = Ok (Program_to
          (CList [CProgram (lineage_proof padded_wallet); CInt 1;
                  CProgram (Program_to (CList [CProgram (create_coin [Byte.xcc] 2)]))])).
Proof.
  apply (solve_singleton_bare_inner 0 SOLVER ∅ full_puzzle
           (snd (Reference.uncurry full_puzzle)) singleton_struct ANYONE_CAN_SPEND_PUZZLE
           (lineage_proof padded_wallet) 1 two_conditions solve_kwargs);
    vm_compute; reflexivity.
Defined.

(** The padded wallet's spend for two conditions. *)
Lemma coin_spend_for_conditions_padded_witness :
  coin_spend_for_conditions SOLVER 2 padded_wallet (add_puzzle padded_full_puzzle ∅)
    {[ "conditions" := KwProgramList two_conditions ]}
  = Ok (make_spend (current_state padded_wallet) padded_full_puzzle
          (Program_to
             (CList [CProgram (lineage_proof padded_wallet); CInt 1;
                     CProgram (Program_to (CList (map CProgram two_conditions)))]))).
Proof.
  apply (coin_spend_for_conditions_padded SOLVER 0 padded_wallet _ padded_full_puzzle
           (snd (Reference.uncurry padded_full_puzzle)) singleton_struct PADDED_PUZZLE);
    try (vm_compute; reflexivity).
  repeat constructor.
Defined.


(** One launcher spend among two spends gives one wallet. *)
Lemma find_interesting_singletons_spec_witness :
  exists w,
    @find_interesting_singletons launcher_clvm [continuing_spend; launcher_spend] = Ok [w] /\
    Forall2 (@records_launch launcher_clvm) [launcher_spend] [w].
Proof.
  destruct (@find_interesting_singletons launcher_clvm [continuing_spend; launcher_spend])
    as [e|ws] eqn:Hrun; [vm_compute in Hrun; discriminate|].
  pose proof (@find_interesting_singletons_spec launcher_clvm _ ws Hrun) as Hspec.
  assert (Hfilter :
    filter (fun s => puzzle_hash (coin s) = @LAUNCHER_PUZZLE_HASH launcher_clvm)
      [continuing_spend; launcher_spend] = [launcher_spend]) by (vm_compute; reflexivity).
  rewrite Hfilter in Hspec.
  destruct ws as [|w [|w' ws]];
    [inversion Hspec | | inversion Hspec as [|? ? ? ? _ Hmore]; inversion Hmore].
  exists w. split; [reflexivity | exact Hspec].
Defined.

End LifecycleExamples.

(** * Properties of transaction records *)
Section TransactionRecordFacts.

Variables SUCCESS PENDING FAILED : Z.
Variables FEE_REWARD COINBASE_REWARD : Z.
Variables pool_parent_id farmer_parent_id : Z -> bytes32 -> bytes32.

Local Abbreviation Record_ := transaction_record.TransactionRecordOld.
Local Abbreviation status := transaction_record.status.
Local Abbreviation sent_to := transaction_record.sent_to.
Local Abbreviation is_in_mempool := (transaction_record.is_in_mempool SUCCESS PENDING FAILED).
Local Abbreviation is_in_mempool_loop := (transaction_record.is_in_mempool_loop SUCCESS PENDING FAILED).
Local Abbreviation is_valid := (transaction_record.is_valid SUCCESS).
Local Abbreviation height_farmed :=
  (transaction_record.height_farmed FEE_REWARD COINBASE_REWARD pool_parent_id farmer_parent_id).
Local Abbreviation height_farmed_loop :=
  (transaction_record.height_farmed_loop pool_parent_id farmer_parent_id).
Local Abbreviation farmed_at := (transaction_record.farmed_at pool_parent_id farmer_parent_id).

Lemma elem_of_two {A} (a x y : A) : a ∈ [x; y] <-> a = x \/ a = y.
Proof. rewrite !elem_of_cons, elem_of_nil. tauto. Qed.

Lemma elem_of_three {A} (a x y z : A) : a ∈ [x; y; z] <-> a = x \/ a = y \/ a = z.
Proof. rewrite !elem_of_cons, elem_of_nil. tauto. Qed.

Lemma is_in_mempool_loop_outcome (entries : list transaction_record.SentTo) :
  NoDup [SUCCESS; PENDING; FAILED] ->
  match is_in_mempool_loop entries with
  | inr true =>
      exists failed x others,
        entries = failed ++ x :: others /\
        Forall (fun y => status y = FAILED) failed /\
        (status x = SUCCESS \/ status x = PENDING)
  | inr false => Forall (fun y => status y = FAILED) entries
  | inl _ =>
      exists failed x others,
        entries = failed ++ x :: others /\
        Forall (fun y => status y = FAILED) failed /\
        status x ∉ [SUCCESS; PENDING; FAILED]
  end.
Proof.
  intros Hnd. induction entries as [|x entries IH]; simpl; [constructor|].
  unfold transaction_record.MempoolInclusionStatus.
  case_bool_decide as Hmember; simpl.
  - case_bool_decide as Hin.
    + exists [], x, entries. split; [reflexivity|]. split; [constructor|].
      apply elem_of_two. exact Hin.
    + assert (Hfailed : status x = FAILED).
      { apply elem_of_three in Hmember. rewrite elem_of_two in Hin. tauto. }
      destruct (is_in_mempool_loop entries) as [e|[|]].
      * destruct IH as (failed & y & others & -> & Hall & Hy).
        exists (x :: failed), y, others. split; [reflexivity|].
        split; [constructor; assumption | exact Hy].
      * destruct IH as (failed & y & others & -> & Hall & Hy).
        exists (x :: failed), y, others. split; [reflexivity|].
        split; [constructor; assumption | exact Hy].
      * constructor; assumption.
  - exists [], x, entries. split; [reflexivity|]. split; [constructor | exact Hmember].
Qed.

(** The outcome of [is_in_mempool] is decided by the first answer that
    is not FAILED: SUCCESS or PENDING gives [True], a status outside the
    enumeration raises, and [False] means every peer answered FAILED.
    Later entries are not looked at. *)
Theorem is_in_mempool_outcome (self : Record_) :
  NoDup [SUCCESS; PENDING; FAILED] ->
  match is_in_mempool self with
  | inr true =>
      exists failed x others,
        sent_to self = failed ++ x :: others /\
        Forall (fun y => status y = FAILED) failed /\
        (status x = SUCCESS \/ status x = PENDING)
  | inr false => Forall (fun y => status y = FAILED) (sent_to self)
  | inl _ =>
      exists failed x others,
        sent_to self = failed ++ x :: others /\
        Forall (fun y => status y = FAILED) failed /\
        status x ∉ [SUCCESS; PENDING; FAILED]
  end.
Proof. intros Hnd. apply is_in_mempool_loop_outcome. exact Hnd. Qed.

Lemma existsb_none {A} (f : A -> bool) (l : list A) :
  Forall (fun x => f x = false) l -> existsb f l = false.
Proof.
  induction 1 as [|x l Hx _ IH]; [reflexivity|]. simpl. rewrite Hx, IH. reflexivity.
Qed.

(** A transaction that six or more peers hold as PENDING, with no fee
    error among the answers, is in the mempool for [is_in_mempool] and
    not valid for [is_valid]. *)
Theorem pending_everywhere_not_valid (self : Record_) :
  SUCCESS <> PENDING ->
  (6 <= length (sent_to self))%nat ->
  Forall (fun x => status x = PENDING /\ transaction_record.is_fee_error x = false)
    (sent_to self) ->
  is_in_mempool self = Ok true /\ is_valid self = false.
Proof.
  intros Hne Hlen Hall. split.
  - unfold transaction_record.is_in_mempool.
    destruct (sent_to self) as [|x entries]; [simpl in Hlen; lia|].
    apply Forall_cons in Hall as [[Hx _] _]. simpl.
    unfold transaction_record.MempoolInclusionStatus. rewrite Hx.
    rewrite bool_decide_true by (apply elem_of_three; tauto). simpl.
    rewrite bool_decide_true by (apply elem_of_two; tauto). reflexivity.
  - unfold transaction_record.is_valid, transaction_record.minimum_send_attempts.
    destruct (Z.ltb_spec (Z.of_nat (length (sent_to self))) 6) as [Hlt|_]; [lia|].
    rewrite existsb_none.
    + rewrite existsb_none; [reflexivity|].
      eapply Forall_impl; [exact Hall|]. intros x [_ Hx]. exact Hx.
    + eapply Forall_impl; [exact Hall|]. intros x [Hx _]. simpl.
      rewrite Hx. apply Z.eqb_neq. congruence.
Qed.

(** [hint_dict] has an entry for a coin exactly when the coin's first
    memo is 32 bytes long, and the entry is that memo: every hint is 32
    bytes long and no coin id is added. *)
Theorem hint_dict_spec (self : Record_) (coin_id hint : bytes32) :
  transaction_record.hint_dict self !! coin_id = Some hint <->
  exists more,
    transaction_record.memos self !! coin_id = Some (hint :: more) /\ length hint = 32%nat.
Proof.
  unfold transaction_record.hint_dict. rewrite lookup_omap. split.
  - destruct (transaction_record.memos self !! coin_id) as [[|first_memo more]|];
      simpl; try discriminate.
    destruct (Nat.eqb_spec (length first_memo) 32) as [Hlen|]; [|discriminate].
    intros [= <-]. exists more. auto.
  - intros (more & Hm & Hlen). unfold bytes32 in *. rewrite Hm. simpl.
    rewrite Hlen. reflexivity.
Qed.

End TransactionRecordFacts.
